(** * JointPointerMath: a shallow embedding of JointPointerMath.h

    The header packs several sub-buffers into one allocation.  The planner
    [JointPointerTotalSize] walks the requests in order, aligns a cursor with
    [std::align] and records each request's offset; [JointPointerWrite]
    stores [Memory + Offset] through every output slot; the
    [JointPointerAllocate] overloads compose both around an allocator
    callback.

    [size_t] and pointers are 64-bit machine words, modelled as [Z] with the
    wrap-around written out.  Caller memory (the output slots and the
    [*OutSize] cell) is a finite map from addresses to words. *)

From Stdlib Require Import ZArith Lia List.
From stdpp Require Import base option list gmap.

Local Open Scope Z_scope.

(** ** Machine words *)

Definition size_bits : Z := 64.

Definition modulus : Z := 2 ^ size_bits.

(** [std::numeric_limits<std::size_t>::max()] *)
Definition SIZE_MAX : Z := modulus - 1.

(** Reduction of an integer to a [size_t] / pointer value. *)
Definition wrap (z : Z) : Z := z mod modulus.

(** A value that a [size_t] field can hold. *)
Definition in_range (z : Z) : Prop := 0 <= z <= SIZE_MAX.

(** A positive power of two representable in [size_t]. *)
Definition pow2 (a : Z) : Prop := exists k, 0 <= k < size_bits /\ a = 2 ^ k.

(** ** The request descriptor *)

(** [struct JointPointer_t]: [Pointer] is the address of the caller's output
    slot ([void**], [0] for [nullptr]). *)
Record JointPointer_t : Type := mkJointPointer_t {
  Pointer : Z;
  Size : Z;
  Alignment : Z;
  Offset : Z
}.

(** The three-argument constructor [JointPointer_t(P, Sz, Align)]. *)
Definition JointPointer_t_new (P Sz Align : Z) : JointPointer_t :=
  {| Pointer := P; Size := Sz; Alignment := Align; Offset := 0 |}.

(** [Elems[i].Offset = v] *)
Definition set_Offset (v : Z) (e : JointPointer_t) : JointPointer_t :=
  {| Pointer := Pointer e; Size := Size e; Alignment := Alignment e;
     Offset := v |}.

(** ** Failures *)

(** The ways a call can stop without returning.  The source stops through
    [JOINTPOINTERMATH_ASSERT] only; an index past the array is undefined
    there and stops the model.  The last two kinds are named by the
    specification and no statement of the header raises them. *)
Inductive Failure : Type :=
| EmptyRequestSet   (* JOINTPOINTERMATH_ASSERT(Num > 0), (ini.size() > 0) *)
| NullElems         (* JOINTPOINTERMATH_ASSERT(Elems != nullptr) *)
| NullOutputSlot    (* JOINTPOINTERMATH_ASSERT(Ptr != nullptr) *)
| OutOfBounds       (* Elems[i] with i past the end of the array *)
| InvalidAlignment
| AllocatorFailure.

Inductive Result (A : Type) : Type :=
| Ok (a : A)
| Err (f : Failure).

Arguments Ok {A} a.
Arguments Err {A} f.

(** The helper [JointPointer(Ptr, Sz, Align)]. *)
Definition JointPointer (Ptr Sz Align : Z) : Result JointPointer_t :=
  if Ptr =? 0 then Err NullOutputSlot
  else Ok (JointPointer_t_new Ptr Sz Align).

(** ** std::align *)

(** [std::align(alignment, size, ptr, space)] comes from the C++ standard
    library header <memory>, which the header includes; its body is not part
    of the repository.  The model follows the standard's contract in the
    form libstdc++ computes it: the first address at or after [ptr] that is
    a multiple of [alignment] is [(ptr - 1 + alignment) & -alignment]; when
    [size] bytes at that address do not fit in the [space] bytes starting at
    [ptr], the result is the null pointer and [ptr] and [space] are left
    alone; otherwise [ptr] is moved to the aligned address, [space] shrinks
    by the padding and the aligned address is returned.

    The value is the triple (returned pointer, new [ptr], new [space]). *)
Definition std_align (alignment size ptr space : Z) : Z * Z * Z :=
  if space <? size then (0, ptr, space)
  else
    let aligned := Z.land (wrap (ptr - 1 + alignment)) (wrap (- alignment)) in
    let diff := wrap (aligned - ptr) in
    if space - size <? diff then (0, ptr, space)
    else (aligned, aligned, space - diff).

(** The statement [Ptr = std::align(A, S, Ptr, Ignore)] with
    [Ignore = SIZE_MAX]: whatever the call stored in [Ptr] through the
    reference, the assignment then overwrites it with the returned
    pointer. *)
Definition align_cursor (alignment size Ptr : Z) : Z :=
  let Ignore := SIZE_MAX in
  let '(ret, _, _) := std_align alignment size Ptr Ignore in
  ret.

(** [Ptr = ((char * )Ptr) + Size] *)
Definition advance (Ptr size : Z) : Z := wrap (Ptr + size).

(** ** The planner *)

(** The [for] loop of [JointPointerTotalSize]: [n] iterations remain, [i] is
    the loop index. *)
Fixpoint total_size_loop (n : nat) (i : nat) (Ptr : Z)
    (Elems : list JointPointer_t) : Result (Z * list JointPointer_t) :=
  match n with
  | O => Ok (Ptr, Elems)
  | S n' =>
      match Elems !! i with
      | None => Err OutOfBounds
      | Some e =>
          let Ptr1 := align_cursor (Alignment e) (Size e) Ptr in
          let Elems1 := <[i := set_Offset Ptr1 e]> Elems in
          let Ptr2 := advance Ptr1 (Size e) in
          total_size_loop n' (S i) Ptr2 Elems1
      end
  end.

(** [size_t JointPointerTotalSize(int Num, JointPointer_t* Elems)]; a null
    [Elems] is [None].  The result is the returned total together with the
    array as the call leaves it. *)
Definition JointPointerTotalSize (Num : Z) (Elems : option (list JointPointer_t))
    : Result (Z * list JointPointer_t) :=
  if negb (0 <? Num) then Err EmptyRequestSet
  else
    match Elems with
    | None => Err NullElems
    | Some Elems => total_size_loop (Z.to_nat Num) 0 0 Elems
    end.

(** [template<int Num> size_t JointPointerTotalSize(JointPointer_t (&Arr)[Num])] *)
Definition JointPointerTotalSize_arr (Arr : list JointPointer_t)
    : Result (Z * list JointPointer_t) :=
  let Num := Z.of_nat (length Arr) in
  if negb (0 <? Num) then Err EmptyRequestSet
  else JointPointerTotalSize Num (Some Arr).

(** ** Caller memory, the allocator and effects *)

(** One invocation of an allocator callback, with the arguments in the
    order they were passed. *)
Inductive AllocCall : Type :=
| PlainCall (arg : Z)
| AlignedCall (arg1 arg2 : Z).

Section Effects.

(** The allocator's private state (its heap). *)
Context {H : Type}.

(** What a call can observe and change: the words of caller memory that
    are written through pointers (output slots, [*OutSize]), the
    allocator's state, and the allocator invocations so far, oldest
    first.  The element array is passed and returned as a value; it is
    taken to be disjoint from the cells in [mem]. *)
Record World : Type := mkWorld {
  mem : gmap Z Z;
  heap : H;
  alloc_calls : list AllocCall
}.

Inductive Outcome (A : Type) : Type :=
| Returns (a : A) (w : World)
| Aborts (f : Failure) (w : World).

Definition M (A : Type) : Type := World -> Outcome A.

Definition ret {A : Type} (a : A) : M A := fun w => Returns A a w.

Definition bind {A B : Type} (m : M A) (k : A -> M B) : M B :=
  fun w =>
    match m w with
    | Returns _ a w' => k a w'
    | Aborts _ f w' => Aborts B f w'
    end.

Definition abort {A : Type} (f : Failure) : M A := fun w => Aborts A f w.

(** [JOINTPOINTERMATH_ASSERT(x)] *)
Definition JOINTPOINTERMATH_ASSERT (x : bool) (f : Failure) : M unit :=
  if x then ret tt else abort f.

Definition lift {A : Type} (r : Result A) : M A :=
  match r with
  | Ok a => ret a
  | Err f => abort f
  end.

(** [*p = v] *)
Definition store (p v : Z) : M unit :=
  fun w => Returns unit tt
    {| mem := <[p := v]> (mem w); heap := heap w;
       alloc_calls := alloc_calls w |}.

(** [void* ( *Alloc)(size_t Size)] *)
Definition PlainAllocator : Type := H -> Z -> Z * H.

(** [void* ( *Alloc)(size_t Size, size_t Alignment)] *)
Definition AlignedAllocator : Type := H -> Z -> Z -> Z * H.

(** [Alloc(x)] *)
Definition call_plain (Alloc : PlainAllocator) (x : Z) : M Z :=
  fun w =>
    let '(p, h) := Alloc (heap w) x in
    Returns Z p
      {| mem := mem w; heap := h;
         alloc_calls := alloc_calls w ++ [PlainCall x] |}.

(** [Alloc(x, y)] *)
Definition call_aligned (Alloc : AlignedAllocator) (x y : Z) : M Z :=
  fun w =>
    let '(p, h) := Alloc (heap w) x y in
    Returns Z p
      {| mem := mem w; heap := h;
         alloc_calls := alloc_calls w ++ [AlignedCall x y] |}.

End Effects.

Arguments World H : clear implicits.
Arguments Outcome H A : clear implicits.
Arguments M H A : clear implicits.
Arguments PlainAllocator H : clear implicits.
Arguments AlignedAllocator H : clear implicits.
Arguments Returns {H A} a w.
Arguments Aborts {H A} f w.

Notation "'let*' x := m 'in' k" := (bind m (fun x => k))
  (at level 10, x name, m at level 100, k at level 200).
Notation "m ;;; k" := (bind m (fun _ => k))
  (at level 100, k at level 200, right associativity).

Section Operations.

Context {H : Type}.

(** ** The resolver *)

(** The [for] loop of [JointPointerWrite]. *)
Fixpoint write_loop (n : nat) (i : nat) (Memory : Z)
    (Elems : list JointPointer_t) : M H unit :=
  match n with
  | O => ret tt
  | S n' =>
      match Elems !! i with
      | None => abort OutOfBounds
      | Some e =>
          store (Pointer e) (wrap (Memory + Offset e)) ;;;
          write_loop n' (S i) Memory Elems
      end
  end.

(** [void JointPointerWrite(void* Memory, int Num, JointPointer_t* Elems)] *)
Definition JointPointerWrite (Memory : Z) (Num : Z)
    (Elems : option (list JointPointer_t)) : M H unit :=
  JOINTPOINTERMATH_ASSERT (0 <? Num) EmptyRequestSet ;;;
  match Elems with
  | None => abort NullElems
  | Some Elems => write_loop (Z.to_nat Num) 0 Memory Elems
  end.

(** ** The combined operation, array overloads *)

(** [if (OutSize != nullptr) *OutSize = TotalSize;] *)
Definition write_OutSize (OutSize TotalSize : Z) : M H unit :=
  if OutSize =? 0 then ret tt else store OutSize TotalSize.

(** [void* JointPointerAllocate(size_t* OutSize, void* ( *Alloc)(size_t),
    int Num, JointPointer_t* Elems)].  The value is the returned pointer
    together with the array as the call leaves it. *)
Definition JointPointerAllocate (OutSize : Z) (Alloc : PlainAllocator H)
    (Num : Z) (Elems : option (list JointPointer_t))
    : M H (Z * list JointPointer_t) :=
  JOINTPOINTERMATH_ASSERT (0 <? Num) EmptyRequestSet ;;;
  JOINTPOINTERMATH_ASSERT (bool_decide (Elems <> None)) NullElems ;;;
  let* r := lift (JointPointerTotalSize Num Elems) in
  let '(TotalSize, Elems1) := r in
  write_OutSize OutSize TotalSize ;;;
  let* Memory := call_plain Alloc TotalSize in
  JointPointerWrite Memory Num (Some Elems1) ;;;
  ret (Memory, Elems1).

(** The same with [void* ( *Alloc)(size_t Size, size_t Alignment)]; the
    call is [Alloc(Elems[0].Alignment, TotalSize)]. *)
Definition JointPointerAllocate_aligned (OutSize : Z)
    (Alloc : AlignedAllocator H) (Num : Z)
    (Elems : option (list JointPointer_t))
    : M H (Z * list JointPointer_t) :=
  JOINTPOINTERMATH_ASSERT (0 <? Num) EmptyRequestSet ;;;
  JOINTPOINTERMATH_ASSERT (bool_decide (Elems <> None)) NullElems ;;;
  let* r := lift (JointPointerTotalSize Num Elems) in
  let '(TotalSize, Elems1) := r in
  write_OutSize OutSize TotalSize ;;;
  match Elems1 !! 0%nat with
  | None => abort OutOfBounds
  | Some e0 =>
      let* Memory := call_aligned Alloc (Alignment e0) TotalSize in
      JointPointerWrite Memory Num (Some Elems1) ;;;
      ret (Memory, Elems1)
  end.

(** The [template<int Num>] overloads taking [JointPointer_t (&Arr)[Num]]. *)
Definition JointPointerAllocate_arr (OutSize : Z) (Alloc : PlainAllocator H)
    (Arr : list JointPointer_t) : M H (Z * list JointPointer_t) :=
  JointPointerAllocate OutSize Alloc (Z.of_nat (length Arr)) (Some Arr).

Definition JointPointerAllocate_aligned_arr (OutSize : Z)
    (Alloc : AlignedAllocator H) (Arr : list JointPointer_t)
    : M H (Z * list JointPointer_t) :=
  JointPointerAllocate_aligned OutSize Alloc (Z.of_nat (length Arr))
    (Some Arr).

(** ** The combined operation, initializer_list overloads *)

(** First range-for ("Determine total size"), started with cursor [Ptr]. *)
Fixpoint ini_size_loop (ini : list JointPointer_t) (Ptr : Z) : Z :=
  match ini with
  | [] => Ptr
  | JP :: rest =>
      let Ptr1 := align_cursor (Alignment JP) (Size JP) Ptr in
      let Ptr2 := advance Ptr1 (Size JP) in
      ini_size_loop rest Ptr2
  end.

(** Second range-for ("Write pointers"). *)
Fixpoint ini_write_loop (ini : list JointPointer_t) (Memory Ptr : Z)
    : M H unit :=
  match ini with
  | [] => ret tt
  | JP :: rest =>
      let Ptr1 := align_cursor (Alignment JP) (Size JP) Ptr in
      store (Pointer JP) (wrap (Memory + Ptr1)) ;;;
      let Ptr2 := advance Ptr1 (Size JP) in
      ini_write_loop rest Memory Ptr2
  end.

(** [void* JointPointerAllocate(size_t* OutSize, void* ( *Alloc)(size_t),
    std::initializer_list<JointPointer_t> ini)].  The elements are
    [const]; the only value is the returned pointer. *)
Definition JointPointerAllocate_ini (OutSize : Z) (Alloc : PlainAllocator H)
    (ini : list JointPointer_t) : M H Z :=
  JOINTPOINTERMATH_ASSERT (0 <? Z.of_nat (length ini)) EmptyRequestSet ;;;
  let TotalSize := ini_size_loop ini 0 in
  write_OutSize OutSize TotalSize ;;;
  let* Memory := call_plain Alloc TotalSize in
  ini_write_loop ini Memory 0 ;;;
  ret 0.

(** The same with the two-argument allocator; the call is
    [Alloc(TotalSize, ini.begin()->Alignment)]. *)
Definition JointPointerAllocate_ini_aligned (OutSize : Z)
    (Alloc : AlignedAllocator H) (ini : list JointPointer_t) : M H Z :=
  JOINTPOINTERMATH_ASSERT (0 <? Z.of_nat (length ini)) EmptyRequestSet ;;;
  let TotalSize := ini_size_loop ini 0 in
  write_OutSize OutSize TotalSize ;;;
  match ini with
  | [] => abort OutOfBounds
  | first :: _ =>
      let* Memory := call_aligned Alloc TotalSize (Alignment first) in
      ini_write_loop ini Memory 0 ;;;
      ret 0
  end.

End Operations.

(** ** The packing rule in the specification's words *)

(** The nearest multiple of [a] at or above [c]. *)
Definition round_up (c a : Z) : Z := (c + a - 1) / a * a.

(** Sequential bump-with-alignment over unbounded integers: the cursor is
    rounded up to the request's alignment, which is the request's offset,
    then advanced by the request's size.  The value is the final cursor and
    the offsets in request order. *)
Fixpoint reference_plan (cursor : Z) (requests : list JointPointer_t)
    : Z * list Z :=
  match requests with
  | [] => (cursor, [])
  | r :: rest =>
      let offset := round_up cursor (Alignment r) in
      let '(total, offsets) := reference_plan (offset + Size r) rest in
      (total, offset :: offsets)
  end.

(** The same rule on [size_t] words, every step reduced modulo [2^64]. *)
Fixpoint reference_plan_wrapped (cursor : Z) (requests : list JointPointer_t)
    : Z * list Z :=
  match requests with
  | [] => (cursor, [])
  | r :: rest =>
      let offset := wrap (round_up cursor (Alignment r)) in
      let '(total, offsets) :=
        reference_plan_wrapped (wrap (offset + Size r)) rest in
      (total, offset :: offsets)
  end.

(** ** The planner as a recursion over the requests *)

(** What the planner's loop does to the part of the array it has not
    visited yet, as a recursion on that part. *)
Fixpoint plan_from (Ptr : Z) (l : list JointPointer_t)
    : Z * list JointPointer_t :=
  match l with
  | [] => (Ptr, [])
  | e :: rest =>
      let Ptr1 := align_cursor (Alignment e) (Size e) Ptr in
      let '(total, rest') := plan_from (advance Ptr1 (Size e)) rest in
      (total, set_Offset Ptr1 e :: rest')
  end.

(** The stores of [JointPointerWrite] as a recursion over the array. *)
Fixpoint write_from (Memory : Z) (l : list JointPointer_t) (m : gmap Z Z)
    : gmap Z Z :=
  match l with
  | [] => m
  | e :: rest =>
      write_from Memory rest (<[Pointer e := wrap (Memory + Offset e)]> m)
  end.

(** ** Predicates used by the statements *)

(** A request as the header's contract wants it: the alignment is a power
    of two and the size is a [size_t] value. *)
Definition valid_request (e : JointPointer_t) : Prop :=
  pow2 (Alignment e) /\ in_range (Size e).

(** The packing of the requests ends inside the address space: the final
    cursor of the rule over unbounded integers is a [size_t] value. *)
Definition fits_address_space (requests : list JointPointer_t) : Prop :=
  fst (reference_plan 0 requests) <= SIZE_MAX.

(** Earlier requests end at or before the start of later ones. *)
Definition non_overlapping (l : list JointPointer_t) : Prop :=
  forall (i j : nat) (ei ej : JointPointer_t),
    (i < j)%nat -> l !! i = Some ei -> l !! j = Some ej ->
    Offset ei + Size ei <= Offset ej.

(** The world a combined operation leaves when it runs to the end:
    [*OutSize] is written unless [OutSize] is null, the allocator was
    invoked once as [call] leaving its state [h], and [Memory + Offset] was
    stored through the slot of every element of [planned], in order. *)
Definition after_allocate {H : Type} (OutSize total Memory : Z) (h : H)
    (call : AllocCall) (planned : list JointPointer_t) (w : World H)
    : World H :=
  {| mem := write_from Memory planned
              (if OutSize =? 0 then mem w else <[OutSize := total]> (mem w));
     heap := h;
     alloc_calls := alloc_calls w ++ [call] |}.

(** ** Inputs used in examples *)

(** An allocator callback that fails on every call, as [malloc] does when
    memory is exhausted: it returns the null pointer. *)
Definition failing_allocator : PlainAllocator unit := fun h _ => (0, h).

(** A bump allocator: the heap state is the next free address. *)
Definition bump_allocator : PlainAllocator Z :=
  fun next size => (next, wrap (next + size)).

(** The aligned form; the first parameter is taken as the size. *)
Definition bump_allocator_aligned : AlignedAllocator Z :=
  fun next size _ => (next, wrap (next + size)).

(** Caller memory with one output slot at address 100 that holds 7777, no
    allocator call made yet. *)
Definition one_slot_world : World unit :=
  {| mem := {[ 100 := 7777 ]}; heap := tt; alloc_calls := [] |}.

(** Caller memory with nothing written, a bump allocator at 4096. *)
Definition fresh_world : World Z :=
  {| mem := ∅; heap := 4096; alloc_calls := [] |}.

(** ** Further predicates and measures *)

(** The elements of [l] are laid out from cursor [c] the way the planner's
    loop lays them out when nothing overflows: each offset is a multiple of
    its alignment, lies less than one alignment above the end of the
    previous element, and [total] is the end of the last one. *)
Fixpoint packed (c : Z) (l : list JointPointer_t) (total : Z) : Prop :=
  match l with
  | [] => total = c
  | e :: rest =>
      c <= Offset e < c + Alignment e /\
      (Alignment e | Offset e) /\
      packed (Offset e + Size e) rest total
  end.

(** The bytes the requests ask for. *)
Fixpoint sum_sizes (l : list JointPointer_t) : Z :=
  match l with
  | [] => 0
  | e :: rest => Size e + sum_sizes rest
  end.

(** The most padding the alignments can cost. *)
Fixpoint sum_padding (l : list JointPointer_t) : Z :=
  match l with
  | [] => 0
  | e :: rest => (Alignment e - 1) + sum_padding rest
  end.

(** An aligned allocator called with its two arguments exchanged. *)
Definition swap_arguments {H : Type} (Alloc : AlignedAllocator H)
    : AlignedAllocator H :=
  fun h x y => Alloc h y x.

(** * Properties *)

(** ** Word arithmetic *)

Lemma modulus_value : modulus = 18446744073709551616.
Proof. reflexivity. Qed.

Lemma wrap_small (z : Z) : 0 <= z <= SIZE_MAX -> wrap z = z.
Proof.
  unfold wrap, SIZE_MAX. rewrite modulus_value. intros Hz.
  apply Z.mod_small. lia.
Qed.

Lemma wrap_range (z : Z) : in_range (wrap z).
Proof.
  unfold in_range, wrap, SIZE_MAX.
  pose proof (Z.mod_pos_bound z modulus) as Hb.
  rewrite modulus_value in *. lia.
Qed.

Lemma pow2_pos (a : Z) : pow2 a -> 0 < a.
Proof. intros (k & Hk & ->). apply Z.pow_pos_nonneg; lia. Qed.

(** A power of two below [2^64] divides [2^64]. *)
Lemma pow2_divides_modulus (a : Z) : pow2 a -> exists q, modulus = q * a.
Proof.
  intros (k & Hk & ->). exists (2 ^ (size_bits - k)).
  unfold modulus. rewrite <- Z.pow_add_r by lia. f_equal. lia.
Qed.

(** [round_up c a] is the least multiple of [a] that is at least [c]. *)
Lemma round_up_bounds (c a : Z) :
  0 < a -> c <= round_up c a < c + a.
Proof.
  intros Ha. unfold round_up.
  pose proof (Z.div_mod (c + a - 1) a ltac:(lia)) as Hdm.
  pose proof (Z.mod_pos_bound (c + a - 1) a Ha) as Hm.
  lia.
Qed.

Lemma round_up_multiple (c a : Z) : (a | round_up c a).
Proof. unfold round_up. apply Z.divide_factor_r. Qed.

Lemma round_up_least (c a m : Z) :
  0 < a -> (a | m) -> c <= m -> round_up c a <= m.
Proof.
  intros Ha [q ->] Hc. unfold round_up.
  apply Z.mul_le_mono_nonneg_r; [lia |].
  apply Z.lt_succ_r. apply Z.div_lt_upper_bound; lia.
Qed.

(** Clearing the low [k] bits: [x & -2^k] is [x] rounded down to a multiple
    of [2^k]. *)
Lemma land_neg_pow2 (x k : Z) :
  0 <= k -> Z.land x (- 2 ^ k) = x / 2 ^ k * 2 ^ k.
Proof.
  intros Hk.
  replace (- 2 ^ k) with (Z.lnot (Z.ones k)).
  - rewrite <- Z.ldiff_land, Z.ldiff_ones_r by lia.
    rewrite Z.shiftl_mul_pow2, Z.shiftr_div_pow2 by lia. reflexivity.
  - rewrite Z.ones_equiv. unfold Z.lnot. lia.
Qed.

(** Masking with the [size_t] image of [-a] is masking with [-a] for a
    value that is itself a [size_t]. *)
Lemma land_wrap_neg (x a : Z) :
  0 <= x <= SIZE_MAX -> Z.land x (wrap (- a)) = Z.land x (- a).
Proof.
  intros Hx. unfold wrap, modulus.
  rewrite <- Z.land_ones by (unfold size_bits; lia).
  rewrite (Z.land_comm (- a)), Z.land_assoc.
  rewrite Z.land_ones by (unfold size_bits; lia).
  fold modulus. fold (wrap x). rewrite wrap_small by assumption.
  reflexivity.
Qed.

(** The rounding expression of [std::align] on a power of two, when the
    rounded address is representable. *)
Lemma aligned_round_up (p a : Z) :
  pow2 a -> 0 <= p -> round_up p a <= SIZE_MAX ->
  Z.land (wrap (p - 1 + a)) (wrap (- a)) = round_up p a.
Proof.
  intros Hp2 Hp Hfit.
  pose proof (pow2_pos a Hp2) as Ha.
  pose proof (round_up_bounds p a Ha) as Hb.
  destruct (pow2_divides_modulus a Hp2) as [q Hq].
  assert (Hle : round_up p a + a <= modulus).
  { unfold round_up in *. unfold SIZE_MAX in Hfit. rewrite Hq in *.
    set (d := (p + a - 1) / a) in *.
    assert (d < q) by nia. nia. }
  assert (Hx : 0 <= p - 1 + a <= SIZE_MAX) by (unfold SIZE_MAX; lia).
  rewrite (wrap_small _ Hx), land_wrap_neg by assumption.
  destruct Hp2 as (k & Hk & ->).
  rewrite land_neg_pow2 by lia.
  unfold round_up. do 2 f_equal. lia.
Qed.

(** [std::align] on a power of two succeeds with the rounded cursor when
    the request ends inside the address space. *)
Lemma align_cursor_fits (a size p : Z) :
  pow2 a -> 0 <= p -> 0 <= size -> round_up p a + size <= SIZE_MAX ->
  align_cursor a size p = round_up p a.
Proof.
  intros Hp2 Hp Hsz Hfit.
  pose proof (round_up_bounds p a (pow2_pos a Hp2)) as Hb.
  unfold align_cursor, std_align.
  destruct (Z.ltb_spec SIZE_MAX size) as [Hlt | _]; [lia |].
  rewrite aligned_round_up by (assumption || lia).
  rewrite (wrap_small (round_up p a - p)) by lia.
  destruct (Z.ltb_spec (SIZE_MAX - size) (round_up p a - p)); [lia | reflexivity].
Qed.

(** ** The planner's loop is a recursion over the array *)

(** With [pre] already visited and [rest] still to do, the loop leaves
    [pre] alone and plans [rest]. *)
Lemma total_size_loop_app (rest pre : list JointPointer_t) (Ptr : Z) :
  total_size_loop (length rest) (length pre) Ptr (pre ++ rest)
  = Ok (fst (plan_from Ptr rest), pre ++ snd (plan_from Ptr rest)).
Proof.
  revert pre Ptr. induction rest as [| e rest IH]; intros pre Ptr; simpl.
  - reflexivity.
  - rewrite list_lookup_middle by reflexivity.
    rewrite (insert_app_r_alt pre (e :: rest)) by lia.
    rewrite Nat.sub_diag. simpl.
    set (Ptr1 := align_cursor (Alignment e) (Size e) Ptr).
    specialize (IH (pre ++ [set_Offset Ptr1 e]) (advance Ptr1 (Size e))).
    rewrite length_app, Nat.add_1_r in IH. simpl in IH.
    rewrite <- app_assoc in IH. simpl in IH. rewrite IH.
    destruct (plan_from (advance Ptr1 (Size e)) rest) as [t rest'].
    simpl. rewrite <- app_assoc. reflexivity.
Qed.

(** On a non-empty array whose length is [Num] the planner returns. *)
Lemma JointPointerTotalSize_plan (Elems : list JointPointer_t) :
  Elems <> [] ->
  JointPointerTotalSize (Z.of_nat (length Elems)) (Some Elems)
  = Ok (plan_from 0 Elems).
Proof.
  intros Hne. unfold JointPointerTotalSize.
  destruct (Z.ltb_spec 0 (Z.of_nat (length Elems))) as [_ | Hle].
  - simpl. rewrite Nat2Z.id.
    pose proof (total_size_loop_app Elems [] 0) as Hl. simpl in Hl.
    rewrite Hl. destruct (plan_from 0 Elems). reflexivity.
  - destruct Elems; [congruence | simpl in Hle; lia].
Qed.

Lemma plan_from_length (l : list JointPointer_t) (Ptr : Z) :
  length (snd (plan_from Ptr l)) = length l.
Proof.
  revert Ptr. induction l as [| e l IH]; intros Ptr; simpl; [reflexivity |].
  specialize (IH (advance (align_cursor (Alignment e) (Size e) Ptr) (Size e))).
  destruct (plan_from _ l). simpl in *. congruence.
Qed.

(** The planner rewrites [Offset] and nothing else. *)
Lemma plan_from_frame (l : list JointPointer_t) (Ptr : Z) :
  Pointer <$> snd (plan_from Ptr l) = Pointer <$> l /\
  Size <$> snd (plan_from Ptr l) = Size <$> l /\
  Alignment <$> snd (plan_from Ptr l) = Alignment <$> l.
Proof.
  revert Ptr. induction l as [| e l IH]; intros Ptr; [auto |].
  cbn [plan_from].
  specialize (IH (advance (align_cursor (Alignment e) (Size e) Ptr) (Size e))).
  destruct (plan_from _ l) as [t l']. cbn [snd] in *.
  rewrite !fmap_cons. destruct IH as (-> & -> & ->). auto.
Qed.

(** The plan reads sizes and alignments only: two arrays that agree on
    them get the same total and the same offsets. *)
Lemma plan_from_ext (l1 l2 : list JointPointer_t) (Ptr : Z) :
  Size <$> l1 = Size <$> l2 -> Alignment <$> l1 = Alignment <$> l2 ->
  fst (plan_from Ptr l1) = fst (plan_from Ptr l2) /\
  Offset <$> snd (plan_from Ptr l1) = Offset <$> snd (plan_from Ptr l2).
Proof.
  revert l2 Ptr. induction l1 as [| e1 l1 IH]; intros [| e2 l2] Ptr Hs Ha;
    try discriminate; [auto |].
  rewrite !fmap_cons in Hs, Ha.
  injection Hs as Hs1 Hs. injection Ha as Ha1 Ha.
  cbn [plan_from]. rewrite Hs1, Ha1.
  specialize (IH l2 (advance (align_cursor (Alignment e2) (Size e2) Ptr) (Size e2)) Hs Ha).
  destruct (plan_from _ l1), (plan_from _ l2). cbn [fst snd] in *.
  rewrite !fmap_cons. destruct IH as [-> ->]. auto.
Qed.

(** Planning an array that was already planned changes nothing. *)
Lemma plan_from_idem (l : list JointPointer_t) (Ptr : Z) :
  plan_from Ptr (snd (plan_from Ptr l)) = plan_from Ptr l.
Proof.
  revert Ptr. induction l as [| e l IH]; intros Ptr; simpl; [reflexivity |].
  specialize (IH (advance (align_cursor (Alignment e) (Size e) Ptr) (Size e))).
  destruct (plan_from _ l) as [t l'] eqn:E. simpl in *.
  rewrite IH. reflexivity.
Qed.

(** ** The planner against the packing rule *)

Lemma reference_plan_lower (l : list JointPointer_t) (c : Z) :
  Forall valid_request l ->
  c <= fst (reference_plan c l) /\
  Forall (fun o => c <= o) (snd (reference_plan c l)).
Proof.
  intros Hv. revert c. induction Hv as [| e l [Hp2 Hsz] _ IH]; intros c; simpl.
  - split; [lia | constructor].
  - pose proof (round_up_bounds c (Alignment e) (pow2_pos _ Hp2)) as Hb.
    specialize (IH (round_up c (Alignment e) + Size e)).
    destruct (reference_plan _ l) as [t offs]. simpl in *.
    destruct IH as [Ht Hoffs]. unfold in_range in Hsz. split; [lia |].
    constructor; [lia |].
    eapply Forall_impl; [exact Hoffs | simpl; intros; lia].
Qed.

(** While the packing stays inside the address space the code follows the
    rule step by step. *)
Lemma plan_from_reference (l : list JointPointer_t) (Ptr : Z) :
  0 <= Ptr -> Forall valid_request l ->
  fst (reference_plan Ptr l) <= SIZE_MAX ->
  fst (plan_from Ptr l) = fst (reference_plan Ptr l) /\
  Offset <$> snd (plan_from Ptr l) = snd (reference_plan Ptr l).
Proof.
  intros HPtr Hv. revert Ptr HPtr.
  induction Hv as [| e l Hve Hv IH]; intros Ptr HPtr Hfit.
  - auto.
  - cbn [plan_from reference_plan] in *.
    destruct Hve as [Hp2 Hsz]. unfold in_range in Hsz.
    pose proof (round_up_bounds Ptr (Alignment e) (pow2_pos _ Hp2)) as Hb.
    pose proof (reference_plan_lower l (round_up Ptr (Alignment e) + Size e) Hv)
      as [Hlow _].
    specialize (IH (round_up Ptr (Alignment e) + Size e) ltac:(lia)).
    destruct (reference_plan (round_up Ptr (Alignment e) + Size e) l)
      as [t offs]. cbn [fst snd] in *.
    rewrite align_cursor_fits by (assumption || lia).
    unfold advance. rewrite wrap_small by lia.
    specialize (IH Hfit).
    destruct (plan_from _ l) as [t' l']. cbn [fst snd] in *.
    rewrite fmap_cons. destruct IH as [-> ->]. auto.
Qed.

Lemma plan_from_non_overlapping (l : list JointPointer_t) (Ptr : Z) :
  0 <= Ptr -> Forall valid_request l ->
  fst (reference_plan Ptr l) <= SIZE_MAX ->
  non_overlapping (snd (plan_from Ptr l)).
Proof.
  intros HPtr Hv. revert Ptr HPtr.
  induction Hv as [| e l Hve Hv IH]; intros Ptr HPtr Hfit.
  - intros i j ei ej _ Hi. discriminate.
  - cbn [plan_from reference_plan] in *.
    destruct Hve as [Hp2 Hsz]. unfold in_range in Hsz.
    pose proof (round_up_bounds Ptr (Alignment e) (pow2_pos _ Hp2)) as Hb.
    pose proof (reference_plan_lower l (round_up Ptr (Alignment e) + Size e) Hv)
      as [Hlow Hall].
    pose proof (plan_from_reference l (round_up Ptr (Alignment e) + Size e)
                  ltac:(lia) Hv) as Href.
    specialize (IH (round_up Ptr (Alignment e) + Size e) ltac:(lia)).
    destruct (reference_plan (round_up Ptr (Alignment e) + Size e) l)
      as [t offs]. cbn [fst snd] in *.
    rewrite align_cursor_fits by (assumption || lia).
    unfold advance. rewrite wrap_small by lia.
    specialize (IH Hfit). destruct (Href Hfit) as [_ Hoffs].
    destruct (plan_from _ l) as [t' l']. cbn [fst snd] in *.
    intros [| i] [| j] ei ej Hij Hi Hj; try lia.
    + injection Hi as <-. cbn [Offset Size set_Offset].
      change ((set_Offset (round_up Ptr (Alignment e)) e :: l') !! S j)
        with (l' !! j) in Hj.
      assert (Hin : (Offset <$> l') !! j = Some (Offset ej))
        by (rewrite list_lookup_fmap, Hj; reflexivity).
      rewrite Hoffs in Hin.
      rewrite Forall_lookup in Hall. apply (Hall _ _ Hin).
    + apply (IH i j); (assumption || lia).
Qed.

(** The loop stops early only by running off the array. *)
Lemma total_size_loop_failure (n i : nat) (Ptr : Z)
    (Elems : list JointPointer_t) (f : Failure) :
  total_size_loop n i Ptr Elems = Err f -> f = OutOfBounds.
Proof.
  revert i Ptr Elems. induction n as [| n IH]; intros i Ptr Elems; simpl.
  - discriminate.
  - destruct (Elems !! i) as [e |]; [apply IH | congruence].
Qed.

Lemma pow2_intro (k : Z) : 0 <= k < 64 -> pow2 (2 ^ k).
Proof. intros Hk. exists k. unfold size_bits. auto. Qed.

(** ** Packing Planner: claims *)

(** C7.  The three scenarios of the specification, for any output slots and
    any previous content of the [Offset] fields:
    [(48,16),(12,2)] gives offsets [0,48] and total 60;
    [(5,4),(8,8)] gives offsets [0,8] and total 16;
    [(0,16),(4,4)] gives offsets [0,0] and total 4. *)
Theorem total_size_scenarios (p1 p2 o1 o2 : Z) :
  JointPointerTotalSize 2
    (Some [mkJointPointer_t p1 48 16 o1; mkJointPointer_t p2 12 2 o2])
  = Ok (60, [mkJointPointer_t p1 48 16 0; mkJointPointer_t p2 12 2 48]) /\
  JointPointerTotalSize 2
    (Some [mkJointPointer_t p1 5 4 o1; mkJointPointer_t p2 8 8 o2])
  = Ok (16, [mkJointPointer_t p1 5 4 0; mkJointPointer_t p2 8 8 8]) /\
  JointPointerTotalSize 2
    (Some [mkJointPointer_t p1 0 16 o1; mkJointPointer_t p2 4 4 o2])
  = Ok (4, [mkJointPointer_t p1 0 16 0; mkJointPointer_t p2 4 4 0]).
Proof. repeat split; vm_compute; reflexivity. Qed.

(** C9.  On a non-empty array the planner returns, and the array it leaves
    has the same length and the same [Pointer], [Size] and [Alignment] in
    every element: only [Offset] is written. *)
Theorem total_size_writes_only_offsets (Elems : list JointPointer_t) :
  Elems <> [] ->
  exists total Elems',
    JointPointerTotalSize (Z.of_nat (length Elems)) (Some Elems)
    = Ok (total, Elems') /\
    length Elems' = length Elems /\
    Pointer <$> Elems' = Pointer <$> Elems /\
    Size <$> Elems' = Size <$> Elems /\
    Alignment <$> Elems' = Alignment <$> Elems.
Proof.
  intros Hne. rewrite (JointPointerTotalSize_plan Elems Hne).
  pose proof (plan_from_length Elems 0) as Hlen.
  pose proof (plan_from_frame Elems 0) as Hfr.
  destruct (plan_from 0 Elems) as [total Elems']. simpl in *.
  exists total, Elems'. tauto.
Qed.

Lemma total_size_writes_only_offsets_witness :
  exists total Elems',
    JointPointerTotalSize 2
      (Some [JointPointer_t_new 100 48 16; JointPointer_t_new 108 12 2])
    = Ok (total, Elems') /\
    length Elems' = 2%nat /\
    Pointer <$> Elems' = [100; 108] /\
    Size <$> Elems' = [48; 12] /\
    Alignment <$> Elems' = [16; 2].
Proof.
  apply (total_size_writes_only_offsets
           [JointPointer_t_new 100 48 16; JointPointer_t_new 108 12 2]).
  discriminate.
Defined.

(** C8.  Two calls in a row on the same non-empty array, the second one on
    the array as the first left it, return the same total and leave the
    same array (hence the same offset in every element). *)
Theorem total_size_idempotent (Elems : list JointPointer_t) :
  Elems <> [] ->
  exists total Elems1,
    JointPointerTotalSize (Z.of_nat (length Elems)) (Some Elems)
    = Ok (total, Elems1) /\
    JointPointerTotalSize (Z.of_nat (length Elems)) (Some Elems1)
    = Ok (total, Elems1).
Proof.
  intros Hne. rewrite (JointPointerTotalSize_plan Elems Hne).
  pose proof (plan_from_length Elems 0) as Hlen.
  pose proof (plan_from_idem Elems 0) as Hidem.
  destruct (plan_from 0 Elems) as [total Elems1] eqn:E. simpl in *.
  exists total, Elems1. split; [reflexivity |].
  rewrite <- Hlen, JointPointerTotalSize_plan.
  - rewrite Hidem. reflexivity.
  - intros ->. destruct Elems; [congruence | discriminate].
Qed.

Lemma total_size_idempotent_witness :
  exists total Elems1,
    JointPointerTotalSize 2
      (Some [JointPointer_t_new 100 5 4; JointPointer_t_new 108 8 8])
    = Ok (total, Elems1) /\
    JointPointerTotalSize 2 (Some Elems1) = Ok (total, Elems1).
Proof.
  apply (total_size_idempotent
           [JointPointer_t_new 100 5 4; JointPointer_t_new 108 8 8]).
  discriminate.
Defined.

(** C2, as the code has it.  For a non-empty array of requests with
    power-of-two alignments whose packing ends inside the address space
    (the final cursor of the rule is at most [SIZE_MAX]), the planner
    returns the final cursor of the bump-with-alignment rule and stores the
    rule's offsets, in order, in the elements. *)
Theorem total_size_is_reference (Elems : list JointPointer_t) :
  Elems <> [] -> Forall valid_request Elems -> fits_address_space Elems ->
  exists Elems',
    JointPointerTotalSize (Z.of_nat (length Elems)) (Some Elems)
    = Ok (fst (reference_plan 0 Elems), Elems') /\
    Offset <$> Elems' = snd (reference_plan 0 Elems).
Proof.
  intros Hne Hv Hfit. rewrite (JointPointerTotalSize_plan Elems Hne).
  destruct (plan_from_reference Elems 0 ltac:(lia) Hv Hfit) as [Ht Ho].
  destruct (plan_from 0 Elems) as [total Elems']. simpl in *.
  exists Elems'. subst total. auto.
Qed.

Lemma total_size_is_reference_witness :
  exists Elems',
    JointPointerTotalSize 2
      (Some [JointPointer_t_new 100 5 4; JointPointer_t_new 108 8 8])
    = Ok (16, Elems') /\
    Offset <$> Elems' = [0; 8].
Proof.
  apply (total_size_is_reference
           [JointPointer_t_new 100 5 4; JointPointer_t_new 108 8 8]).
  - discriminate.
  - repeat constructor; simpl.
    + apply (pow2_intro 2). lia.
    + vm_compute. discriminate.
    + vm_compute. discriminate.
    + apply (pow2_intro 3). lia.
    + vm_compute. discriminate.
    + vm_compute. discriminate.
  - vm_compute. discriminate.
Defined.

(** C2 fails as stated.  With requests [(size 1, align 1)] and
    [(size SIZE_MAX, align 2)] the second [std::align] finds no room for
    [SIZE_MAX] bytes after one byte of padding and returns null, so the
    cursor restarts at 0: the planner returns [SIZE_MAX] with offsets
    [0, 0], where the rule gives offsets [0, 2] and total [SIZE_MAX + 2]
    (1 when reduced modulo [2^64]). *)
Lemma total_size_not_reference_on_overflow :
  exists Elems total Elems',
    Elems = [JointPointer_t_new 100 1 1; JointPointer_t_new 108 SIZE_MAX 2] /\
    Elems <> [] /\ Forall valid_request Elems /\
    JointPointerTotalSize (Z.of_nat (length Elems)) (Some Elems)
    = Ok (total, Elems') /\
    total = SIZE_MAX /\ Offset <$> Elems' = [0; 0] /\
    reference_plan 0 Elems = (SIZE_MAX + 2, [0; 2]) /\
    reference_plan_wrapped 0 Elems = (1, [0; 2]) /\
    total <> fst (reference_plan 0 Elems) /\
    total <> fst (reference_plan_wrapped 0 Elems) /\
    Offset <$> Elems' <> snd (reference_plan 0 Elems) /\
    Offset <$> Elems' <> snd (reference_plan_wrapped 0 Elems).
Proof.
  eexists _, _, _. split; [reflexivity |]. split; [discriminate |].
  split.
  { repeat constructor; simpl.
    - apply (pow2_intro 0). lia.
    - vm_compute. discriminate.
    - vm_compute. discriminate.
    - apply (pow2_intro 1). lia.
    - vm_compute. discriminate.
    - vm_compute. discriminate. }
  split; [vm_compute; reflexivity |].
  repeat split; try (vm_compute; reflexivity); vm_compute; discriminate.
Qed.

(** C6, as the code has it.  For a non-empty array of requests with
    power-of-two alignments whose packing ends inside the address space,
    the planner returns and the offsets it leaves do not overlap: for
    [i < j], [Offset i + Size i <= Offset j]. *)
Theorem total_size_non_overlapping (Elems : list JointPointer_t) :
  Elems <> [] -> Forall valid_request Elems -> fits_address_space Elems ->
  exists total Elems',
    JointPointerTotalSize (Z.of_nat (length Elems)) (Some Elems)
    = Ok (total, Elems') /\
    forall (i j : nat) (ei ej : JointPointer_t),
      (i < j)%nat -> Elems' !! i = Some ei -> Elems' !! j = Some ej ->
      Offset ei + Size ei <= Offset ej.
Proof.
  intros Hne Hv Hfit. rewrite (JointPointerTotalSize_plan Elems Hne).
  pose proof (plan_from_non_overlapping Elems 0 ltac:(lia) Hv Hfit) as Hno.
  destruct (plan_from 0 Elems) as [total Elems']. simpl in *.
  exists total, Elems'. split; [reflexivity | exact Hno].
Qed.

Lemma total_size_non_overlapping_witness :
  exists total Elems',
    JointPointerTotalSize 2
      (Some [JointPointer_t_new 100 48 16; JointPointer_t_new 108 12 2])
    = Ok (total, Elems') /\
    forall (i j : nat) (ei ej : JointPointer_t),
      (i < j)%nat -> Elems' !! i = Some ei -> Elems' !! j = Some ej ->
      Offset ei + Size ei <= Offset ej.
Proof.
  apply (total_size_non_overlapping
           [JointPointer_t_new 100 48 16; JointPointer_t_new 108 12 2]).
  - discriminate.
  - repeat constructor; simpl.
    + apply (pow2_intro 4). lia.
    + vm_compute. discriminate.
    + vm_compute. discriminate.
    + apply (pow2_intro 1). lia.
    + vm_compute. discriminate.
    + vm_compute. discriminate.
  - vm_compute. discriminate.
Defined.

(** C6 fails as stated.  On [(size 1, align 1)], [(size SIZE_MAX, align 2)]
    both offsets are 0 after the call, so the first request's byte
    [0, 1) lies inside the second request's range. *)
Lemma total_size_overlap_on_overflow :
  exists Elems total Elems' e0 e1,
    Elems = [JointPointer_t_new 100 1 1; JointPointer_t_new 108 SIZE_MAX 2] /\
    Elems <> [] /\ Forall valid_request Elems /\
    JointPointerTotalSize (Z.of_nat (length Elems)) (Some Elems)
    = Ok (total, Elems') /\
    Elems' !! 0%nat = Some e0 /\ Elems' !! 1%nat = Some e1 /\
    Offset e0 = 0 /\ Size e0 = 1 /\ Offset e1 = 0 /\
    ~ (Offset e0 + Size e0 <= Offset e1).
Proof.
  eexists _, _, _, _, _. split; [reflexivity |]. split; [discriminate |].
  split.
  { repeat constructor; simpl.
    - apply (pow2_intro 0). lia.
    - vm_compute. discriminate.
    - vm_compute. discriminate.
    - apply (pow2_intro 1). lia.
    - vm_compute. discriminate.
    - vm_compute. discriminate. }
  split; [vm_compute; reflexivity |].
  repeat split; simpl; lia.
Qed.

(** C3, as the code has it.  The planner does not look at the alignment
    values before rounding: on every non-empty array, whatever its
    alignments, it returns a total and an array, and the only failures it
    can signal are the two assertions and the run past the array. *)
Theorem total_size_no_alignment_check :
  (forall Elems : list JointPointer_t,
      Elems <> [] ->
      exists total Elems',
        JointPointerTotalSize (Z.of_nat (length Elems)) (Some Elems)
        = Ok (total, Elems')) /\
  (forall Num Elems f,
      JointPointerTotalSize Num Elems = Err f ->
      f = EmptyRequestSet \/ f = NullElems \/ f = OutOfBounds).
Proof.
  split.
  - intros Elems Hne. rewrite (JointPointerTotalSize_plan Elems Hne).
    destruct (plan_from 0 Elems) as [total Elems']. eauto.
  - intros Num Elems f. unfold JointPointerTotalSize.
    destruct (negb (0 <? Num)); [intros [= <-]; auto |].
    destruct Elems as [Elems |]; [| intros [= <-]; auto].
    intros Hf. apply total_size_loop_failure in Hf. auto.
Qed.

Lemma total_size_no_alignment_check_witness :
  ~ pow2 3 /\
  exists total Elems',
    JointPointerTotalSize 2
      (Some [JointPointer_t_new 100 1 1; JointPointer_t_new 108 4 3])
    = Ok (total, Elems').
Proof.
  split.
  - intros (k & Hk & Hp). unfold size_bits in Hk.
    assert (Hc : k = 0 \/ k = 1 \/ 2 <= k) by lia.
    destruct Hc as [-> | [-> | Hc]]; [discriminate | discriminate |].
    assert (2 ^ 2 <= 2 ^ k) by (apply Z.pow_le_mono_r; lia). lia.
  - apply (proj1 total_size_no_alignment_check
             [JointPointer_t_new 100 1 1; JointPointer_t_new 108 4 3]).
    discriminate.
Defined.

(** C3 fails as stated: no input makes the planner signal
    [InvalidAlignment]. *)
Lemma total_size_never_invalid_alignment :
  ~ exists (Num : Z) (Elems : option (list JointPointer_t)),
      JointPointerTotalSize Num Elems = Err InvalidAlignment.
Proof.
  intros (Num & Elems & Hf). revert Hf. unfold JointPointerTotalSize.
  destruct (negb (0 <? Num)); [discriminate |].
  destruct Elems as [Elems |]; [| discriminate].
  intros Hf. apply total_size_loop_failure in Hf. discriminate.
Qed.

(** ** The resolver and the combined operations as recursions *)

Section Runs.

Context {H : Type}.

Lemma write_loop_app (rest pre : list JointPointer_t) (Memory : Z)
    (w : World H) :
  write_loop (length rest) (length pre) Memory (pre ++ rest) w
  = Returns tt {| mem := write_from Memory rest (mem w); heap := heap w;
                  alloc_calls := alloc_calls w |}.
Proof.
  revert pre w. induction rest as [| e rest IH]; intros pre w.
  - destruct w; reflexivity.
  - cbn [length write_loop write_from].
    rewrite list_lookup_middle by reflexivity.
    specialize (IH (pre ++ [e])).
    rewrite length_app, Nat.add_1_r, <- app_assoc in IH.
    unfold bind, store. cbn [app] in IH. rewrite IH. reflexivity.
Qed.

Lemma JointPointerWrite_run (Memory : Z) (Elems : list JointPointer_t)
    (w : World H) :
  Elems <> [] ->
  JointPointerWrite Memory (Z.of_nat (length Elems)) (Some Elems) w
  = Returns tt {| mem := write_from Memory Elems (mem w); heap := heap w;
                  alloc_calls := alloc_calls w |}.
Proof.
  intros Hne. unfold JointPointerWrite, bind, JOINTPOINTERMATH_ASSERT.
  destruct (Z.ltb_spec 0 (Z.of_nat (length Elems))) as [_ | Hle].
  - cbn [ret]. rewrite Nat2Z.id. apply (write_loop_app Elems []).
  - destruct Elems; [congruence | simpl in Hle; lia].
Qed.

Lemma ini_size_loop_plan (ini : list JointPointer_t) (Ptr : Z) :
  ini_size_loop ini Ptr = fst (plan_from Ptr ini).
Proof.
  revert Ptr. induction ini as [| e ini IH]; intros Ptr; [reflexivity |].
  cbn [ini_size_loop plan_from]. rewrite IH.
  destruct (plan_from _ ini). reflexivity.
Qed.

Lemma ini_write_loop_plan (ini : list JointPointer_t) (Memory Ptr : Z)
    (w : World H) :
  ini_write_loop ini Memory Ptr w
  = Returns tt {| mem := write_from Memory (snd (plan_from Ptr ini)) (mem w);
                  heap := heap w; alloc_calls := alloc_calls w |}.
Proof.
  revert Ptr w. induction ini as [| e ini IH]; intros Ptr w.
  - destruct w; reflexivity.
  - cbn [ini_write_loop plan_from]. unfold bind, store. rewrite IH.
    destruct (plan_from _ ini). reflexivity.
Qed.

Lemma plan_from_nonempty (l : list JointPointer_t) (Ptr : Z) :
  l <> [] -> snd (plan_from Ptr l) <> [].
Proof.
  intros Hne Hnil. pose proof (plan_from_length l Ptr) as Hlen.
  rewrite Hnil in Hlen. destruct l; [congruence | discriminate].
Qed.

Lemma JointPointerAllocate_run (OutSize : Z) (Alloc : PlainAllocator H)
    (Elems : list JointPointer_t) (w : World H) :
  Elems <> [] ->
  JointPointerAllocate OutSize Alloc (Z.of_nat (length Elems)) (Some Elems) w
  = let total := fst (plan_from 0 Elems) in
    let planned := snd (plan_from 0 Elems) in
    let r := Alloc (heap w) total in
    Returns (fst r, planned)
      (after_allocate OutSize total (fst r) (snd r) (PlainCall total)
         planned w).
Proof.
  intros Hne. unfold JointPointerAllocate.
  rewrite (JointPointerTotalSize_plan Elems Hne).
  pose proof (plan_from_length Elems 0) as Hlen.
  pose proof (plan_from_nonempty Elems 0 Hne) as Hne'.
  destruct (plan_from 0 Elems) as [total planned]. cbn [fst snd] in *.
  unfold bind at 1. unfold JOINTPOINTERMATH_ASSERT.
  destruct (Z.ltb_spec 0 (Z.of_nat (length Elems))) as [_ | Hle];
    [| destruct Elems; [congruence | simpl in Hle; lia]].
  cbn [ret]. unfold bind at 1. cbn [bool_decide decide_rel].
  rewrite bool_decide_eq_true_2 by discriminate. cbn [ret lift].
  unfold bind at 1. cbn [ret]. unfold bind at 1.
  rewrite <- Hlen.
  unfold write_OutSize, call_plain, after_allocate.
  destruct (OutSize =? 0); cbn [ret store heap mem alloc_calls];
    unfold bind at 1; cbn [heap mem alloc_calls];
    destruct (Alloc (heap w) total) as [p h]; cbn [fst snd];
    unfold bind; rewrite (JointPointerWrite_run p planned _ Hne');
    reflexivity.
Qed.

Lemma JointPointerAllocate_aligned_run (OutSize : Z)
    (Alloc : AlignedAllocator H) (e0 : JointPointer_t)
    (Elems : list JointPointer_t) (w : World H) :
  JointPointerAllocate_aligned OutSize Alloc
    (Z.of_nat (length (e0 :: Elems))) (Some (e0 :: Elems)) w
  = let total := fst (plan_from 0 (e0 :: Elems)) in
    let planned := snd (plan_from 0 (e0 :: Elems)) in
    let r := Alloc (heap w) (Alignment e0) total in
    Returns (fst r, planned)
      (after_allocate OutSize total (fst r) (snd r)
         (AlignedCall (Alignment e0) total) planned w).
Proof.
  assert (Hne : e0 :: Elems <> []) by discriminate.
  unfold JointPointerAllocate_aligned.
  rewrite (JointPointerTotalSize_plan _ Hne).
  pose proof (plan_from_length (e0 :: Elems) 0) as Hlen.
  pose proof (plan_from_nonempty (e0 :: Elems) 0 Hne) as Hne'.
  assert (H0 : snd (plan_from 0 (e0 :: Elems)) !! 0%nat
               = Some (set_Offset (align_cursor (Alignment e0) (Size e0) 0) e0)).
  { cbn [plan_from]. destruct (plan_from _ Elems). reflexivity. }
  destruct (plan_from 0 (e0 :: Elems)) as [total planned].
  cbn [fst snd] in *.
  unfold bind at 1. unfold JOINTPOINTERMATH_ASSERT.
  destruct (Z.ltb_spec 0 (Z.of_nat (length (e0 :: Elems)))) as [_ | Hle];
    [| simpl in Hle; lia].
  cbn [ret]. unfold bind at 1.
  rewrite bool_decide_eq_true_2 by discriminate. cbn [ret lift].
  unfold bind at 1. cbn [ret]. unfold bind at 1.
  rewrite <- Hlen, H0. cbn [Alignment set_Offset].
  unfold write_OutSize, call_aligned, after_allocate.
  destruct (OutSize =? 0); cbn [ret store heap mem alloc_calls];
    unfold bind at 1; cbn [heap mem alloc_calls];
    destruct (Alloc (heap w) (Alignment e0) total) as [p h]; cbn [fst snd];
    unfold bind; rewrite (JointPointerWrite_run p planned _ Hne');
    reflexivity.
Qed.

Lemma JointPointerAllocate_ini_run (OutSize : Z) (Alloc : PlainAllocator H)
    (ini : list JointPointer_t) (w : World H) :
  ini <> [] ->
  JointPointerAllocate_ini OutSize Alloc ini w
  = let total := fst (plan_from 0 ini) in
    let planned := snd (plan_from 0 ini) in
    let r := Alloc (heap w) total in
    Returns 0
      (after_allocate OutSize total (fst r) (snd r) (PlainCall total)
         planned w).
Proof.
  intros Hne. unfold JointPointerAllocate_ini.
  rewrite ini_size_loop_plan.
  unfold bind at 1. unfold JOINTPOINTERMATH_ASSERT.
  destruct (Z.ltb_spec 0 (Z.of_nat (length ini))) as [_ | Hle];
    [| destruct ini; [congruence | simpl in Hle; lia]].
  cbn [ret]. unfold bind at 1.
  unfold write_OutSize, call_plain, after_allocate.
  destruct (OutSize =? 0); cbn [ret store heap mem alloc_calls];
    unfold bind at 1; cbn [heap mem alloc_calls];
    destruct (Alloc (heap w) (fst (plan_from 0 ini))) as [p h];
    cbn [fst snd]; unfold bind; rewrite ini_write_loop_plan; reflexivity.
Qed.

Lemma JointPointerAllocate_ini_aligned_run (OutSize : Z)
    (Alloc : AlignedAllocator H) (first : JointPointer_t)
    (ini : list JointPointer_t) (w : World H) :
  JointPointerAllocate_ini_aligned OutSize Alloc (first :: ini) w
  = let total := fst (plan_from 0 (first :: ini)) in
    let planned := snd (plan_from 0 (first :: ini)) in
    let r := Alloc (heap w) total (Alignment first) in
    Returns 0
      (after_allocate OutSize total (fst r) (snd r)
         (AlignedCall total (Alignment first)) planned w).
Proof.
  unfold JointPointerAllocate_ini_aligned.
  rewrite ini_size_loop_plan.
  unfold bind at 1. unfold JOINTPOINTERMATH_ASSERT.
  destruct (Z.ltb_spec 0 (Z.of_nat (length (first :: ini)))) as [_ | Hle];
    [| simpl in Hle; lia].
  cbn [ret]. unfold bind at 1.
  unfold write_OutSize, call_aligned, after_allocate.
  destruct (OutSize =? 0); cbn [ret store heap mem alloc_calls];
    unfold bind at 1; cbn [heap mem alloc_calls];
    destruct (Alloc (heap w) (fst (plan_from 0 (first :: ini)))
                (Alignment first)) as [p h];
    cbn [fst snd]; unfold bind; rewrite ini_write_loop_plan; reflexivity.
Qed.

(** ** What the stores leave in memory *)

Lemma write_from_other (l : list JointPointer_t) (Memory p : Z)
    (m : gmap Z Z) :
  p ∉ Pointer <$> l -> write_from Memory l m !! p = m !! p.
Proof.
  revert m. induction l as [| e l IH]; intros m Hp; [reflexivity |].
  rewrite fmap_cons, not_elem_of_cons in Hp. destruct Hp as [Hpe Hpl].
  cbn [write_from]. rewrite IH by assumption.
  apply lookup_insert_ne. congruence.
Qed.

(** Every slot named by an element holds [Memory + Offset] of an element
    naming it (the last one, when several do). *)
Lemma write_from_written (l : list JointPointer_t) (Memory : Z)
    (m : gmap Z Z) (e : JointPointer_t) :
  e ∈ l ->
  exists e', e' ∈ l /\ Pointer e' = Pointer e /\
    write_from Memory l m !! Pointer e = Some (wrap (Memory + Offset e')).
Proof.
  revert m e. induction l as [| x l IH]; intros m e He.
  - inversion He.
  - cbn [write_from].
    destruct (decide (Pointer e ∈ Pointer <$> l)) as [Hin | Hnot].
    + apply list_elem_of_fmap in Hin as (y & Hy & Hyl).
      destruct (IH (<[Pointer x := wrap (Memory + Offset x)]> m) y Hyl)
        as (e' & He' & Hp & Hl).
      exists e'. rewrite Hy, Hl.
      split; [right; assumption | split; [congruence | reflexivity]].
    + rewrite write_from_other by assumption.
      apply elem_of_cons in He as [-> | He].
      * exists x. split; [left |]. split; [reflexivity |].
        apply lookup_insert_eq.
      * exfalso. apply Hnot. apply list_elem_of_fmap. eauto.
Qed.

(** With pairwise distinct slots each one holds its own element's
    address. *)
Lemma write_from_distinct (l : list JointPointer_t) (Memory : Z)
    (m : gmap Z Z) (e : JointPointer_t) :
  NoDup (Pointer <$> l) -> e ∈ l ->
  write_from Memory l m !! Pointer e = Some (wrap (Memory + Offset e)).
Proof.
  revert m. induction l as [| x l IH]; intros m Hnd He.
  - inversion He.
  - rewrite fmap_cons in Hnd. apply NoDup_cons in Hnd as [Hx Hnd].
    cbn [write_from]. apply elem_of_cons in He as [-> | He].
    + rewrite write_from_other by assumption. apply lookup_insert_eq.
    + apply IH; assumption.
Qed.

End Runs.

Lemma land_wrap_range (x y : Z) : in_range (Z.land (wrap x) (wrap y)).
Proof.
  assert (Hbits : 0 <= size_bits) by (unfold size_bits; lia).
  replace (Z.land (wrap x) (wrap y)) with (wrap (Z.land (wrap x) (wrap y))).
  - apply wrap_range.
  - unfold wrap at 1. unfold modulus. rewrite <- Z.land_ones by assumption.
    rewrite (Z.land_comm (wrap x)), <- Z.land_assoc.
    rewrite (Z.land_ones (wrap x)) by assumption. fold modulus.
    fold (wrap (wrap x)). rewrite (wrap_small (wrap x)) by apply wrap_range.
    reflexivity.
Qed.

Lemma align_cursor_range (a size p : Z) : in_range (align_cursor a size p).
Proof.
  unfold align_cursor, std_align.
  destruct (SIZE_MAX <? size); [vm_compute; split; discriminate |].
  destruct (_ <? _); [vm_compute; split; discriminate |].
  apply land_wrap_range.
Qed.

Lemma plan_from_offsets_range (l : list JointPointer_t) (Ptr : Z) :
  Forall (fun e => in_range (Offset e)) (snd (plan_from Ptr l)).
Proof.
  revert Ptr. induction l as [| e l IH]; intros Ptr; cbn [plan_from].
  - constructor.
  - specialize (IH (advance (align_cursor (Alignment e) (Size e) Ptr) (Size e))).
    destruct (plan_from _ l). cbn [snd] in *.
    constructor; [apply align_cursor_range | assumption].
Qed.

(** Arrays that agree on slots, sizes and alignments are planned alike. *)
Lemma plan_from_agree (l1 l2 : list JointPointer_t) (Ptr : Z) :
  Pointer <$> l1 = Pointer <$> l2 -> Size <$> l1 = Size <$> l2 ->
  Alignment <$> l1 = Alignment <$> l2 ->
  plan_from Ptr l1 = plan_from Ptr l2.
Proof.
  revert l2 Ptr. induction l1 as [| e1 l1 IH]; intros [| e2 l2] Ptr Hp Hs Ha;
    try discriminate; [reflexivity |].
  rewrite !fmap_cons in Hp, Hs, Ha.
  injection Hp as Hp1 Hp. injection Hs as Hs1 Hs. injection Ha as Ha1 Ha.
  cbn [plan_from]. unfold set_Offset. rewrite Hp1, Hs1, Ha1.
  rewrite (IH l2 _ Hp Hs Ha). reflexivity.
Qed.

(** ** Combined operation: claims *)

(** C4.  With zero requests the planner and every allocate overload stop at
    the assertion on the count, as an [EmptyRequestSet] failure; the world at
    that point is the initial one, so the allocator callback has not been
    invoked and nothing was stored. *)
Theorem empty_request_set_fails {H : Type} (OutSize : Z)
    (Alloc : PlainAllocator H) (AllocA : AlignedAllocator H)
    (Elems : option (list JointPointer_t)) (w : World H) :
  JointPointerTotalSize 0 Elems = Err EmptyRequestSet /\
  JointPointerTotalSize_arr [] = Err EmptyRequestSet /\
  JointPointerAllocate OutSize Alloc 0 Elems w = Aborts EmptyRequestSet w /\
  JointPointerAllocate_aligned OutSize AllocA 0 Elems w
  = Aborts EmptyRequestSet w /\
  JointPointerAllocate_arr OutSize Alloc [] w = Aborts EmptyRequestSet w /\
  JointPointerAllocate_aligned_arr OutSize AllocA [] w
  = Aborts EmptyRequestSet w /\
  JointPointerAllocate_ini OutSize Alloc [] w = Aborts EmptyRequestSet w /\
  JointPointerAllocate_ini_aligned OutSize AllocA [] w
  = Aborts EmptyRequestSet w.
Proof. repeat split; reflexivity. Qed.

(** C5.  Both initializer_list overloads return the null pointer whenever
    they return, and on every non-empty list they do return; the value the
    allocator produced is not passed on.  The array overloads return the
    allocator's value. *)
Theorem ini_allocate_returns_null {H : Type} (OutSize : Z)
    (Alloc : PlainAllocator H) (AllocA : AlignedAllocator H)
    (ini : list JointPointer_t) (w : World H) :
  (forall v w', JointPointerAllocate_ini OutSize Alloc ini w = Returns v w' ->
                v = 0) /\
  (forall v w',
      JointPointerAllocate_ini_aligned OutSize AllocA ini w = Returns v w' ->
      v = 0) /\
  (ini <> [] ->
   exists total planned,
     JointPointerTotalSize (Z.of_nat (length ini)) (Some ini)
     = Ok (total, planned) /\
     (exists w', JointPointerAllocate_ini OutSize Alloc ini w = Returns 0 w') /\
     (exists w',
         JointPointerAllocate_ini_aligned OutSize AllocA ini w = Returns 0 w') /\
     (exists w',
         JointPointerAllocate OutSize Alloc (Z.of_nat (length ini)) (Some ini) w
         = Returns (fst (Alloc (heap w) total), planned) w') /\
     (forall first, ini !! 0%nat = Some first ->
        exists w',
          JointPointerAllocate_aligned OutSize AllocA (Z.of_nat (length ini))
            (Some ini) w
          = Returns (fst (AllocA (heap w) (Alignment first) total), planned) w')).
Proof.
  assert (Hret : ini <> [] ->
    exists total planned,
     JointPointerTotalSize (Z.of_nat (length ini)) (Some ini)
     = Ok (total, planned) /\
     (exists w', JointPointerAllocate_ini OutSize Alloc ini w = Returns 0 w') /\
     (exists w',
         JointPointerAllocate_ini_aligned OutSize AllocA ini w = Returns 0 w') /\
     (exists w',
         JointPointerAllocate OutSize Alloc (Z.of_nat (length ini)) (Some ini) w
         = Returns (fst (Alloc (heap w) total), planned) w') /\
     (forall first, ini !! 0%nat = Some first ->
        exists w',
          JointPointerAllocate_aligned OutSize AllocA (Z.of_nat (length ini))
            (Some ini) w
          = Returns (fst (AllocA (heap w) (Alignment first) total), planned) w')).
  { intros Hne.
    exists (fst (plan_from 0 ini)), (snd (plan_from 0 ini)).
    rewrite (JointPointerTotalSize_plan ini Hne).
    rewrite (JointPointerAllocate_ini_run OutSize Alloc ini w Hne).
    rewrite (JointPointerAllocate_run OutSize Alloc ini w Hne).
    split; [destruct (plan_from 0 ini); reflexivity |].
    split; [eauto |].
    destruct ini as [| first rest]; [congruence |].
    rewrite JointPointerAllocate_ini_aligned_run.
    split; [eauto |]. split; [eauto |].
    intros first' [= <-]. rewrite JointPointerAllocate_aligned_run. eauto. }
  split; [| split; [| exact Hret]].
  - destruct ini as [| first rest]; [discriminate |].
    rewrite JointPointerAllocate_ini_run by discriminate.
    intros v w' [= <- _]. reflexivity.
  - destruct ini as [| first rest]; [discriminate |].
    rewrite JointPointerAllocate_ini_aligned_run.
    intros v w' [= <- _]. reflexivity.
Qed.

Lemma ini_allocate_returns_null_witness :
  exists total planned,
    JointPointerTotalSize 2
      (Some [JointPointer_t_new 100 48 16; JointPointer_t_new 108 12 2])
    = Ok (total, planned) /\
    (exists w',
        JointPointerAllocate_ini 0 bump_allocator
          [JointPointer_t_new 100 48 16; JointPointer_t_new 108 12 2]
          fresh_world
        = Returns 0 w') /\
    (exists w',
        JointPointerAllocate_ini_aligned 0 bump_allocator_aligned
          [JointPointer_t_new 100 48 16; JointPointer_t_new 108 12 2]
          fresh_world
        = Returns 0 w') /\
    (exists w',
        JointPointerAllocate 0 bump_allocator 2
          (Some [JointPointer_t_new 100 48 16; JointPointer_t_new 108 12 2])
          fresh_world
        = Returns (fst (bump_allocator 4096 total), planned) w') /\
    (forall first,
        [JointPointer_t_new 100 48 16; JointPointer_t_new 108 12 2] !! 0%nat
        = Some first ->
        exists w',
          JointPointerAllocate_aligned 0 bump_allocator_aligned 2
            (Some [JointPointer_t_new 100 48 16; JointPointer_t_new 108 12 2])
            fresh_world
          = Returns
              (fst (bump_allocator_aligned 4096 (Alignment first) total),
               planned) w').
Proof.
  apply (proj2 (proj2 (ini_allocate_returns_null 0 bump_allocator
                         bump_allocator_aligned
                         [JointPointer_t_new 100 48 16;
                          JointPointer_t_new 108 12 2] fresh_world))).
  discriminate.
Defined.

(** C10.  Given a non-empty list and an array that agree on every
    element's slot, size and alignment, a plain allocator and the same
    starting world, the array overload and the initializer_list overload
    both return and leave the same world: the same word in every output
    slot, the same [*OutSize], the same single allocator call.  The array
    overload returns the allocator's pointer and the planned array; the
    initializer_list overload returns null and hands back no array. *)
Theorem ini_allocate_matches_array {H : Type} (OutSize : Z)
    (Alloc : PlainAllocator H) (ini Elems : list JointPointer_t)
    (w : World H) :
  ini <> [] ->
  Pointer <$> ini = Pointer <$> Elems ->
  Size <$> ini = Size <$> Elems ->
  Alignment <$> ini = Alignment <$> Elems ->
  exists total Memory planned w',
    JointPointerTotalSize (Z.of_nat (length Elems)) (Some Elems)
    = Ok (total, planned) /\
    JointPointerAllocate OutSize Alloc (Z.of_nat (length Elems)) (Some Elems) w
    = Returns (Memory, planned) w' /\
    JointPointerAllocate_ini OutSize Alloc ini w = Returns 0 w' /\
    Memory = fst (Alloc (heap w) total) /\
    mem w' = write_from Memory planned
               (if OutSize =? 0 then mem w else <[OutSize := total]> (mem w)) /\
    alloc_calls w' = alloc_calls w ++ [PlainCall total].
Proof.
  intros Hne Hp Hs Ha.
  assert (HneE : Elems <> []).
  { intros ->. destruct ini; [congruence | discriminate]. }
  rewrite (JointPointerTotalSize_plan Elems HneE).
  rewrite (JointPointerAllocate_run OutSize Alloc Elems w HneE).
  rewrite (JointPointerAllocate_ini_run OutSize Alloc ini w Hne).
  rewrite (plan_from_agree ini Elems 0 Hp Hs Ha).
  destruct (plan_from 0 Elems) as [total planned]. cbn [fst snd].
  exists total, (fst (Alloc (heap w) total)), planned.
  eexists. repeat split; reflexivity.
Qed.

Lemma ini_allocate_matches_array_witness :
  exists total Memory planned w',
    JointPointerTotalSize 2
      (Some [mkJointPointer_t 100 5 4 77; mkJointPointer_t 108 8 8 99])
    = Ok (total, planned) /\
    JointPointerAllocate 200 bump_allocator 2
      (Some [mkJointPointer_t 100 5 4 77; mkJointPointer_t 108 8 8 99])
      fresh_world
    = Returns (Memory, planned) w' /\
    JointPointerAllocate_ini 200 bump_allocator
      [JointPointer_t_new 100 5 4; JointPointer_t_new 108 8 8] fresh_world
    = Returns 0 w' /\
    Memory = fst (bump_allocator 4096 total) /\
    mem w' = write_from Memory planned (<[200 := total]> ∅) /\
    alloc_calls w' = [PlainCall total].
Proof.
  apply (ini_allocate_matches_array 200 bump_allocator
           [JointPointer_t_new 100 5 4; JointPointer_t_new 108 8 8]
           [mkJointPointer_t 100 5 4 77; mkJointPointer_t 108 8 8 99]
           fresh_world).
  - discriminate.
  - reflexivity.
  - reflexivity.
  - reflexivity.
Defined.

(** C1, as the code has it.  On a non-empty array, when the allocator
    callback returns null the plain array overload does not fail: it has
    invoked the allocator once, it returns that null pointer, and it has
    stored through every request's output slot.  Each slot holds
    [null + Offset] of a request naming it, which is the request's own
    offset when the slots are pairwise distinct. *)
Theorem allocate_null_allocator_writes_slots {H : Type} (OutSize : Z)
    (Alloc : PlainAllocator H) (Elems : list JointPointer_t) (w : World H) :
  Elems <> [] ->
  (forall total planned,
      JointPointerTotalSize (Z.of_nat (length Elems)) (Some Elems)
      = Ok (total, planned) ->
      fst (Alloc (heap w) total) = 0) ->
  exists total planned w',
    JointPointerTotalSize (Z.of_nat (length Elems)) (Some Elems)
    = Ok (total, planned) /\
    JointPointerAllocate OutSize Alloc (Z.of_nat (length Elems)) (Some Elems) w
    = Returns (0, planned) w' /\
    alloc_calls w' = alloc_calls w ++ [PlainCall total] /\
    (forall e, e ∈ planned ->
       exists e', e' ∈ planned /\ Pointer e' = Pointer e /\
                  mem w' !! Pointer e = Some (Offset e')) /\
    (NoDup (Pointer <$> Elems) ->
     forall e, e ∈ planned -> mem w' !! Pointer e = Some (Offset e)).
Proof.
  intros Hne Hnull.
  rewrite (JointPointerTotalSize_plan Elems Hne) in *.
  rewrite (JointPointerAllocate_run OutSize Alloc Elems w Hne).
  pose proof (plan_from_offsets_range Elems 0) as Hrange.
  pose proof (plan_from_frame Elems 0) as (Hptr & _ & _).
  destruct (plan_from 0 Elems) as [total planned]. cbn [fst snd] in *.
  rewrite (Hnull total planned eq_refl).
  exists total, planned. eexists.
  split; [reflexivity |]. split; [reflexivity |].
  split; [reflexivity |]. cbn [after_allocate mem].
  rewrite Forall_forall in Hrange.
  split.
  - intros e He.
    destruct (write_from_written planned 0
                (if OutSize =? 0 then mem w else <[OutSize := total]> (mem w))
                e He) as (e' & He' & Hpe & Hl).
    exists e'. split; [assumption |]. split; [assumption |].
    rewrite Hl, Z.add_0_l, wrap_small; [reflexivity | apply Hrange, He'].
  - intros Hnd e He. rewrite <- Hptr in Hnd.
    rewrite (write_from_distinct planned 0 _ e Hnd He).
    rewrite Z.add_0_l, wrap_small; [reflexivity | apply Hrange, He].
Qed.

Lemma allocate_null_allocator_writes_slots_witness :
  exists total planned w',
    JointPointerTotalSize 1 (Some [JointPointer_t_new 100 8 8])
    = Ok (total, planned) /\
    JointPointerAllocate 0 failing_allocator 1
      (Some [JointPointer_t_new 100 8 8]) one_slot_world
    = Returns (0, planned) w' /\
    alloc_calls w' = [PlainCall total] /\
    (forall e, e ∈ planned ->
       exists e', e' ∈ planned /\ Pointer e' = Pointer e /\
                  mem w' !! Pointer e = Some (Offset e')) /\
    (NoDup (Pointer <$> [JointPointer_t_new 100 8 8]) ->
     forall e, e ∈ planned -> mem w' !! Pointer e = Some (Offset e)).
Proof.
  apply (allocate_null_allocator_writes_slots 0 failing_allocator
           [JointPointer_t_new 100 8 8] one_slot_world).
  - discriminate.
  - intros total planned _. reflexivity.
Defined.

(** C1 fails as stated.  One request with its slot at address 100, which
    holds 7777, and an allocator that returns null: the call returns null
    instead of failing, and the slot holds 0 afterwards. *)
Lemma allocate_null_allocator_no_failure :
  (forall h size, fst (failing_allocator h size) = 0) /\
  mem one_slot_world !! 100 = Some 7777 /\
  (forall w',
      JointPointerAllocate 0 failing_allocator 1
        (Some [JointPointer_t_new 100 8 8]) one_slot_world
      <> Aborts AllocatorFailure w') /\
  exists planned w',
    JointPointerAllocate 0 failing_allocator 1
      (Some [JointPointer_t_new 100 8 8]) one_slot_world
    = Returns (0, planned) w' /\
    mem w' !! 100 = Some 0 /\
    mem w' <> mem one_slot_world.
Proof.
  pose proof (JointPointerAllocate_run 0 failing_allocator
                [JointPointer_t_new 100 8 8] one_slot_world
                ltac:(discriminate)) as Hrun.
  change (Z.of_nat (length [JointPointer_t_new 100 8 8])) with 1 in Hrun.
  split; [reflexivity |]. split; [reflexivity |].
  split; [intros w'; rewrite Hrun; discriminate |].
  eexists _, _. split; [exact Hrun |].
  split; [reflexivity |].
  intros Heq. apply (f_equal (fun m : gmap Z Z => m !! 100)) in Heq.
  vm_compute in Heq. discriminate.
Qed.

(** * Further properties of the header *)

(** ** Helper lemmas on the planner *)

(** One step of the planner while the packing stays inside the address
    space. *)
Lemma plan_from_step (e : JointPointer_t) (l : list JointPointer_t) (Ptr : Z) :
  0 <= Ptr -> valid_request e -> Forall valid_request l ->
  fst (reference_plan Ptr (e :: l)) <= SIZE_MAX ->
  let off := round_up Ptr (Alignment e) in
  plan_from Ptr (e :: l)
  = (fst (plan_from (off + Size e) l),
     set_Offset off e :: snd (plan_from (off + Size e) l)) /\
  Ptr <= off < Ptr + Alignment e /\
  0 <= off + Size e /\
  fst (reference_plan (off + Size e) l) <= SIZE_MAX.
Proof.
  intros HPtr [Hp2 Hsz] Hv Hfit off. unfold in_range in Hsz.
  pose proof (round_up_bounds Ptr (Alignment e) (pow2_pos _ Hp2)) as Hb.
  pose proof (reference_plan_lower l (off + Size e) Hv) as [Hlow _].
  cbn [reference_plan] in Hfit. fold off in Hfit, Hb.
  destruct (reference_plan (off + Size e) l) as [t offs].
  cbn [fst] in *.
  cbn [plan_from].
  rewrite align_cursor_fits by (assumption || (fold off; lia)).
  fold off. unfold advance. rewrite wrap_small by lia.
  destruct (plan_from (off + Size e) l). cbn [fst snd].
  repeat split; lia.
Qed.

Lemma plan_from_packed (l : list JointPointer_t) (Ptr : Z) :
  0 <= Ptr -> Forall valid_request l ->
  fst (reference_plan Ptr l) <= SIZE_MAX ->
  packed Ptr (snd (plan_from Ptr l)) (fst (plan_from Ptr l)).
Proof.
  intros HPtr Hv. revert Ptr HPtr.
  induction Hv as [| e l Hve Hv IH]; intros Ptr HPtr Hfit.
  - reflexivity.
  - destruct (plan_from_step e l Ptr HPtr Hve Hv Hfit)
      as (-> & Hoff & Hnext & Hfit').
    cbn [fst snd packed Offset Size Alignment set_Offset].
    split; [exact Hoff |]. split; [apply round_up_multiple |].
    apply IH; assumption.
Qed.

Lemma packed_aligned (l : list JointPointer_t) (c total : Z) :
  packed c l total -> Forall (fun e => (Alignment e | Offset e)) l.
Proof.
  revert c. induction l as [| e l IH]; intros c Hp; [constructor |].
  destruct Hp as (_ & Ha & Hp). constructor; [exact Ha | eauto].
Qed.

Lemma packed_within (l : list JointPointer_t) (c total : Z) :
  Forall (fun e => 0 <= Size e) l -> packed c l total ->
  c <= total /\
  Forall (fun e => c <= Offset e /\ Offset e + Size e <= total) l.
Proof.
  intros Hs. revert c. induction Hs as [| e l Hse Hs IH]; intros c Hp.
  - cbn in Hp. subst. split; [lia | constructor].
  - destruct Hp as (Hc & _ & Hp). destruct (IH _ Hp) as [Hle Hall].
    split; [lia |]. constructor; [lia |].
    eapply Forall_impl; [exact Hall | cbn; intros; lia].
Qed.

Lemma packed_padding (l : list JointPointer_t) (c total : Z) (i : nat)
    (ei ej : JointPointer_t) :
  packed c l total -> l !! i = Some ei -> l !! S i = Some ej ->
  Offset ei + Size ei <= Offset ej < Offset ei + Size ei + Alignment ej.
Proof.
  revert c i. induction l as [| e l IH]; intros c i Hp Hi Hj;
    [discriminate |].
  destruct Hp as (_ & _ & Hp). destruct i as [| i].
  - injection Hi as <-. destruct l as [| e' l']; [discriminate |].
    injection Hj as <-. destruct Hp as (Hb & _). exact Hb.
  - exact (IH _ i Hp Hi Hj).
Qed.

Lemma packed_sums (l : list JointPointer_t) (c total : Z) :
  packed c l total ->
  c + sum_sizes l <= total <= c + sum_sizes l + sum_padding l.
Proof.
  revert c. induction l as [| e l IH]; intros c Hp.
  - cbn in *. lia.
  - destruct Hp as (Hc & _ & Hp). specialize (IH _ Hp).
    cbn [sum_sizes sum_padding]. lia.
Qed.

Lemma valid_request_size_nonneg (l : list JointPointer_t) :
  Forall valid_request l -> Forall (fun e => 0 <= Size e) l.
Proof.
  intros Hv. eapply Forall_impl; [exact Hv |].
  intros e [_ Hr]. unfold in_range in Hr. lia.
Qed.

(** The rounding expression of [std::align] on a null cursor is null for
    every alignment value. *)
Lemma aligned_from_null (a : Z) : Z.land (wrap (0 - 1 + a)) (wrap (- a)) = 0.
Proof.
  assert (Hbits : 0 <= size_bits) by (unfold size_bits; lia).
  unfold wrap, modulus. rewrite <- !Z.land_ones by assumption.
  rewrite Z.land_assoc, (Z.land_comm _ (- a)), Z.land_assoc.
  replace (- a) with (Z.lnot (0 - 1 + a)) by (unfold Z.lnot; lia).
  rewrite (Z.land_comm (Z.lnot _)), Z.land_lnot_diag. reflexivity.
Qed.

Lemma align_cursor_null (a size : Z) : align_cursor a size 0 = 0.
Proof.
  unfold align_cursor, std_align.
  destruct (SIZE_MAX <? size); [reflexivity |].
  rewrite aligned_from_null. destruct (_ <? _); reflexivity.
Qed.

Lemma plan_from_app (l1 l2 : list JointPointer_t) (Ptr : Z) :
  plan_from Ptr (l1 ++ l2)
  = (fst (plan_from (fst (plan_from Ptr l1)) l2),
     snd (plan_from Ptr l1) ++ snd (plan_from (fst (plan_from Ptr l1)) l2)).
Proof.
  revert Ptr. induction l1 as [| e l1 IH]; intros Ptr.
  - cbn. destruct (plan_from Ptr l2). reflexivity.
  - cbn [app plan_from]. rewrite IH.
    destruct (plan_from _ l1). reflexivity.
Qed.

(** The loop over the middle part of an array leaves both ends alone. *)
Lemma total_size_loop_middle (mid pre post : list JointPointer_t) (Ptr : Z) :
  total_size_loop (length mid) (length pre) Ptr (pre ++ mid ++ post)
  = Ok (fst (plan_from Ptr mid), pre ++ snd (plan_from Ptr mid) ++ post).
Proof.
  revert pre Ptr. induction mid as [| e mid IH]; intros pre Ptr.
  - reflexivity.
  - cbn [length total_size_loop app plan_from].
    rewrite list_lookup_middle by reflexivity.
    rewrite (insert_app_r_alt pre (e :: mid ++ post)) by lia.
    rewrite Nat.sub_diag. cbn [insert list_insert].
    set (Ptr1 := align_cursor (Alignment e) (Size e) Ptr).
    specialize (IH (pre ++ [set_Offset Ptr1 e]) (advance Ptr1 (Size e))).
    rewrite length_app, Nat.add_1_r, <- !app_assoc in IH.
    cbn [app] in IH. rewrite IH.
    destruct (plan_from (advance Ptr1 (Size e)) mid). reflexivity.
Qed.

(** ** Packing Planner: further properties *)

(** X1.  For a non-empty array of requests with power-of-two alignments
    whose packing stays inside the address space, every offset the planner
    stores is a multiple of its request's alignment. *)
Theorem total_size_offsets_aligned (Elems : list JointPointer_t) :
  Elems <> [] -> Forall valid_request Elems -> fits_address_space Elems ->
  exists total planned,
    JointPointerTotalSize (Z.of_nat (length Elems)) (Some Elems)
    = Ok (total, planned) /\
    Forall (fun e => (Alignment e | Offset e)) planned.
Proof.
  intros Hne Hv Hfit. rewrite (JointPointerTotalSize_plan Elems Hne).
  pose proof (plan_from_packed Elems 0 ltac:(lia) Hv Hfit) as Hp.
  destruct (plan_from 0 Elems) as [total planned]. cbn [fst snd] in Hp.
  exists total, planned. split; [reflexivity |].
  exact (packed_aligned _ _ _ Hp).
Qed.

Lemma total_size_offsets_aligned_witness :
  exists total planned,
    JointPointerTotalSize 2
      (Some [JointPointer_t_new 100 5 4; JointPointer_t_new 108 8 8])
    = Ok (total, planned) /\
    Forall (fun e => (Alignment e | Offset e)) planned.
Proof.
  apply (total_size_offsets_aligned
           [JointPointer_t_new 100 5 4; JointPointer_t_new 108 8 8]).
  - discriminate.
  - repeat constructor; simpl.
    + apply (pow2_intro 2). lia.
    + vm_compute. discriminate.
    + vm_compute. discriminate.
    + apply (pow2_intro 3). lia.
    + vm_compute. discriminate.
    + vm_compute. discriminate.
  - vm_compute. discriminate.
Defined.

(** X2.  Under the same conditions every sub-buffer lies inside the buffer
    the planner sizes: offsets are non-negative and [Offset + Size] never
    exceeds the returned total. *)
Theorem total_size_covers_requests (Elems : list JointPointer_t) :
  Elems <> [] -> Forall valid_request Elems -> fits_address_space Elems ->
  exists total planned,
    JointPointerTotalSize (Z.of_nat (length Elems)) (Some Elems)
    = Ok (total, planned) /\
    Forall (fun e => 0 <= Offset e /\ Offset e + Size e <= total) planned.
Proof.
  intros Hne Hv Hfit. rewrite (JointPointerTotalSize_plan Elems Hne).
  pose proof (plan_from_packed Elems 0 ltac:(lia) Hv Hfit) as Hp.
  pose proof (plan_from_frame Elems 0) as (_ & Hsz & _).
  destruct (plan_from 0 Elems) as [total planned]. cbn [fst snd] in *.
  exists total, planned. split; [reflexivity |].
  apply (packed_within planned 0 total); [| exact Hp].
  apply valid_request_size_nonneg in Hv.
  rewrite Forall_lookup in *. intros i e Hi.
  assert (Hs : (Size <$> Elems) !! i = Some (Size e))
    by (rewrite <- Hsz, list_lookup_fmap, Hi; reflexivity).
  rewrite list_lookup_fmap in Hs.
  destruct (Elems !! i) as [e0 |] eqn:E0; [| discriminate].
  injection Hs as <-. exact (Hv i e0 E0).
Qed.

Lemma total_size_covers_requests_witness :
  exists total planned,
    JointPointerTotalSize 2
      (Some [JointPointer_t_new 100 48 16; JointPointer_t_new 108 12 2])
    = Ok (total, planned) /\
    Forall (fun e => 0 <= Offset e /\ Offset e + Size e <= total) planned.
Proof.
  apply (total_size_covers_requests
           [JointPointer_t_new 100 48 16; JointPointer_t_new 108 12 2]).
  - discriminate.
  - repeat constructor; simpl.
    + apply (pow2_intro 4). lia.
    + vm_compute. discriminate.
    + vm_compute. discriminate.
    + apply (pow2_intro 1). lia.
    + vm_compute. discriminate.
    + vm_compute. discriminate.
  - vm_compute. discriminate.
Defined.

(** X3.  Under the same conditions the padding in front of a request is
    smaller than that request's alignment: for consecutive elements,
    [Offset (i+1)] is at least the end of element [i] and less than that end
    plus [Alignment (i+1)]. *)
Theorem total_size_padding_minimal (Elems : list JointPointer_t) :
  Elems <> [] -> Forall valid_request Elems -> fits_address_space Elems ->
  exists total planned,
    JointPointerTotalSize (Z.of_nat (length Elems)) (Some Elems)
    = Ok (total, planned) /\
    forall (i : nat) (ei ej : JointPointer_t),
      planned !! i = Some ei -> planned !! S i = Some ej ->
      Offset ei + Size ei <= Offset ej
      < Offset ei + Size ei + Alignment ej.
Proof.
  intros Hne Hv Hfit. rewrite (JointPointerTotalSize_plan Elems Hne).
  pose proof (plan_from_packed Elems 0 ltac:(lia) Hv Hfit) as Hp.
  destruct (plan_from 0 Elems) as [total planned]. cbn [fst snd] in Hp.
  exists total, planned. split; [reflexivity |].
  intros i ei ej. exact (packed_padding planned 0 total i ei ej Hp).
Qed.

Lemma total_size_padding_minimal_witness :
  exists total planned,
    JointPointerTotalSize 2
      (Some [JointPointer_t_new 100 5 4; JointPointer_t_new 108 8 8])
    = Ok (total, planned) /\
    forall (i : nat) (ei ej : JointPointer_t),
      planned !! i = Some ei -> planned !! S i = Some ej ->
      Offset ei + Size ei <= Offset ej
      < Offset ei + Size ei + Alignment ej.
Proof.
  apply (total_size_padding_minimal
           [JointPointer_t_new 100 5 4; JointPointer_t_new 108 8 8]).
  - discriminate.
  - repeat constructor; simpl.
    + apply (pow2_intro 2). lia.
    + vm_compute. discriminate.
    + vm_compute. discriminate.
    + apply (pow2_intro 3). lia.
    + vm_compute. discriminate.
    + vm_compute. discriminate.
  - vm_compute. discriminate.
Defined.

(** X4.  Under the same conditions the returned total is at least the sum
    of the sizes and exceeds it by at most the sum of [Alignment - 1] over
    the requests. *)
Theorem total_size_bounds (Elems : list JointPointer_t) :
  Elems <> [] -> Forall valid_request Elems -> fits_address_space Elems ->
  exists total planned,
    JointPointerTotalSize (Z.of_nat (length Elems)) (Some Elems)
    = Ok (total, planned) /\
    sum_sizes Elems <= total <= sum_sizes Elems + sum_padding Elems.
Proof.
  intros Hne Hv Hfit. rewrite (JointPointerTotalSize_plan Elems Hne).
  pose proof (plan_from_packed Elems 0 ltac:(lia) Hv Hfit) as Hp.
  pose proof (plan_from_frame Elems 0) as (_ & Hsz & Hal).
  destruct (plan_from 0 Elems) as [total planned]. cbn [fst snd] in *.
  exists total, planned. split; [reflexivity |].
  apply packed_sums in Hp.
  assert (Hss : forall l1 l2 : list JointPointer_t,
             Size <$> l1 = Size <$> l2 -> sum_sizes l1 = sum_sizes l2).
  { induction l1 as [| a l1 IH]; intros [| b l2] Heq; try discriminate;
      [reflexivity |].
    rewrite !fmap_cons in Heq. injection Heq as Hab Heq.
    cbn [sum_sizes]. rewrite Hab, (IH l2 Heq). reflexivity. }
  assert (Hsp : forall l1 l2 : list JointPointer_t,
             Alignment <$> l1 = Alignment <$> l2 ->
             sum_padding l1 = sum_padding l2).
  { induction l1 as [| a l1 IH]; intros [| b l2] Heq; try discriminate;
      [reflexivity |].
    rewrite !fmap_cons in Heq. injection Heq as Hab Heq.
    cbn [sum_padding]. rewrite Hab, (IH l2 Heq). reflexivity. }
  rewrite (Hss _ _ Hsz), (Hsp _ _ Hal) in Hp. lia.
Qed.

Lemma total_size_bounds_witness :
  exists total planned,
    JointPointerTotalSize 2
      (Some [JointPointer_t_new 100 5 4; JointPointer_t_new 108 8 8])
    = Ok (total, planned) /\
    13 <= total <= 13 + 10.
Proof.
  apply (total_size_bounds
           [JointPointer_t_new 100 5 4; JointPointer_t_new 108 8 8]).
  - discriminate.
  - repeat constructor; simpl.
    + apply (pow2_intro 2). lia.
    + vm_compute. discriminate.
    + vm_compute. discriminate.
    + apply (pow2_intro 3). lia.
    + vm_compute. discriminate.
    + vm_compute. discriminate.
  - vm_compute. discriminate.
Defined.

(** X5.  The first request always gets offset 0, whatever its alignment and
    size and whatever follows it. *)
Theorem total_size_first_offset_zero (e : JointPointer_t)
    (rest : list JointPointer_t) :
  exists total first planned,
    JointPointerTotalSize (Z.of_nat (length (e :: rest))) (Some (e :: rest))
    = Ok (total, first :: planned) /\
    first = set_Offset 0 e.
Proof.
  rewrite (JointPointerTotalSize_plan (e :: rest)) by discriminate.
  cbn [plan_from]. rewrite align_cursor_null.
  destruct (plan_from _ rest) as [total planned].
  exists total, (set_Offset 0 e), planned. split; reflexivity.
Qed.

(** X6.  The planner reads sizes and alignments only: two non-empty arrays
    that agree on them, whatever their slots and previous offsets, get the
    same total and the same offsets. *)
Theorem total_size_depends_on_sizes_and_alignments
    (Elems1 Elems2 : list JointPointer_t) :
  Elems1 <> [] ->
  Size <$> Elems1 = Size <$> Elems2 ->
  Alignment <$> Elems1 = Alignment <$> Elems2 ->
  exists total planned1 planned2,
    JointPointerTotalSize (Z.of_nat (length Elems1)) (Some Elems1)
    = Ok (total, planned1) /\
    JointPointerTotalSize (Z.of_nat (length Elems2)) (Some Elems2)
    = Ok (total, planned2) /\
    Offset <$> planned1 = Offset <$> planned2.
Proof.
  intros Hne Hs Ha.
  assert (Hne2 : Elems2 <> []).
  { intros ->. destruct Elems1; [congruence | discriminate]. }
  rewrite (JointPointerTotalSize_plan Elems1 Hne).
  rewrite (JointPointerTotalSize_plan Elems2 Hne2).
  destruct (plan_from_ext Elems1 Elems2 0 Hs Ha) as [Ht Ho].
  destruct (plan_from 0 Elems1) as [t1 p1], (plan_from 0 Elems2) as [t2 p2].
  cbn [fst snd] in *. subst t2. exists t1, p1, p2. auto.
Qed.

Lemma total_size_depends_on_sizes_and_alignments_witness :
  exists total planned1 planned2,
    JointPointerTotalSize 2
      (Some [mkJointPointer_t 100 5 4 0; mkJointPointer_t 108 8 8 0])
    = Ok (total, planned1) /\
    JointPointerTotalSize 2
      (Some [mkJointPointer_t 500 5 4 71; mkJointPointer_t 600 8 8 93])
    = Ok (total, planned2) /\
    Offset <$> planned1 = Offset <$> planned2.
Proof.
  apply (total_size_depends_on_sizes_and_alignments
           [mkJointPointer_t 100 5 4 0; mkJointPointer_t 108 8 8 0]
           [mkJointPointer_t 500 5 4 71; mkJointPointer_t 600 8 8 93]).
  - discriminate.
  - reflexivity.
  - reflexivity.
Defined.

(** X7.  With a count smaller than the array, the planner plans the first
    [Num] elements exactly as it would plan them alone and leaves the
    remaining elements untouched. *)
Theorem total_size_partial_count (n : nat) (Elems : list JointPointer_t) :
  (0 < n <= length Elems)%nat ->
  exists total planned,
    JointPointerTotalSize (Z.of_nat n) (Some (take n Elems))
    = Ok (total, planned) /\
    JointPointerTotalSize (Z.of_nat n) (Some Elems)
    = Ok (total, planned ++ drop n Elems).
Proof.
  intros Hn.
  assert (Hlen : length (take n Elems) = n) by (rewrite length_take; lia).
  assert (Hne : take n Elems <> []).
  { intros Hnil. rewrite Hnil in Hlen. simpl in Hlen. lia. }
  exists (fst (plan_from 0 (take n Elems))), (snd (plan_from 0 (take n Elems))).
  split.
  - rewrite <- Hlen at 1. rewrite (JointPointerTotalSize_plan _ Hne).
    destruct (plan_from 0 (take n Elems)). reflexivity.
  - unfold JointPointerTotalSize.
    destruct (Z.ltb_spec 0 (Z.of_nat n)) as [_ | Hle]; [| lia].
    cbn [negb]. rewrite Nat2Z.id.
    pose proof (total_size_loop_middle (take n Elems) [] (drop n Elems) 0)
      as Hl.
    rewrite Hlen in Hl. cbn [length app] in Hl.
    rewrite take_drop in Hl. exact Hl.
Qed.

Lemma total_size_partial_count_witness :
  exists total planned,
    JointPointerTotalSize 1 (Some [mkJointPointer_t 100 5 4 71])
    = Ok (total, planned) /\
    JointPointerTotalSize 1
      (Some [mkJointPointer_t 100 5 4 71; mkJointPointer_t 108 8 8 93])
    = Ok (total, planned ++ [mkJointPointer_t 108 8 8 93]).
Proof.
  apply (total_size_partial_count 1
           [mkJointPointer_t 100 5 4 71; mkJointPointer_t 108 8 8 93]).
  simpl. lia.
Defined.

(** X8.  Appending requests does not move the earlier ones: the planner
    gives the elements of a non-empty array the same offsets whether or not
    further requests follow. *)
Theorem total_size_prefix_stable (l1 l2 : list JointPointer_t) :
  l1 <> [] ->
  exists total1 planned1 total planned2,
    JointPointerTotalSize (Z.of_nat (length l1)) (Some l1)
    = Ok (total1, planned1) /\
    JointPointerTotalSize (Z.of_nat (length (l1 ++ l2))) (Some (l1 ++ l2))
    = Ok (total, planned1 ++ planned2) /\
    length planned2 = length l2.
Proof.
  intros Hne.
  assert (Hne' : l1 ++ l2 <> []) by (destruct l1; [congruence | discriminate]).
  rewrite (JointPointerTotalSize_plan l1 Hne).
  rewrite (JointPointerTotalSize_plan _ Hne'), plan_from_app.
  pose proof (plan_from_length l2 (fst (plan_from 0 l1))) as Hlen.
  destruct (plan_from 0 l1) as [t1 p1]. cbn [fst snd] in *.
  destruct (plan_from t1 l2) as [t p2]. cbn [fst snd] in *.
  exists t1, p1, t, p2. auto.
Qed.

Lemma total_size_prefix_stable_witness :
  exists total1 planned1 total planned2,
    JointPointerTotalSize 1 (Some [JointPointer_t_new 100 5 4])
    = Ok (total1, planned1) /\
    JointPointerTotalSize 2
      (Some [JointPointer_t_new 100 5 4; JointPointer_t_new 108 8 8])
    = Ok (total, planned1 ++ planned2) /\
    length planned2 = 1%nat.
Proof.
  apply (total_size_prefix_stable [JointPointer_t_new 100 5 4]
           [JointPointer_t_new 108 8 8]).
  discriminate.
Defined.

(** ** Helper lemmas on the stores *)

Lemma write_from_app (l1 l2 : list JointPointer_t) (Memory : Z)
    (m : gmap Z Z) :
  write_from Memory (l1 ++ l2) m = write_from Memory l2 (write_from Memory l1 m).
Proof.
  revert m. induction l1 as [| e l1 IH]; intros m; [reflexivity |].
  cbn [app write_from]. apply IH.
Qed.

Lemma write_from_last (l1 l2 : list JointPointer_t) (e : JointPointer_t)
    (Memory : Z) (m : gmap Z Z) :
  Pointer e ∉ Pointer <$> l2 ->
  write_from Memory (l1 ++ e :: l2) m !! Pointer e
  = Some (wrap (Memory + Offset e)).
Proof.
  intros Hnot. rewrite write_from_app. cbn [write_from].
  rewrite write_from_other by assumption. apply lookup_insert_eq.
Qed.

(** ** Resolver and combined operation: further properties *)

(** X9.  A count that is zero or negative stops the planner, the resolver
    and both array overloads of the combined operation at the first
    assertion, whether or not the array pointer is null; nothing is stored
    and the allocator is not invoked. *)
Theorem nonpositive_count_fails {H : Type} (Num OutSize Memory : Z)
    (Alloc : PlainAllocator H) (AllocA : AlignedAllocator H)
    (Elems : option (list JointPointer_t)) (w : World H) :
  Num <= 0 ->
  JointPointerTotalSize Num Elems = Err EmptyRequestSet /\
  JointPointerWrite Memory Num Elems w = Aborts EmptyRequestSet w /\
  JointPointerAllocate OutSize Alloc Num Elems w = Aborts EmptyRequestSet w /\
  JointPointerAllocate_aligned OutSize AllocA Num Elems w
  = Aborts EmptyRequestSet w.
Proof.
  intros HNum.
  unfold JointPointerTotalSize, JointPointerWrite, JointPointerAllocate,
    JointPointerAllocate_aligned, bind, JOINTPOINTERMATH_ASSERT.
  destruct (Z.ltb_spec 0 Num) as [Hlt | _]; [lia |].
  repeat split; reflexivity.
Qed.

Lemma nonpositive_count_fails_witness :
  JointPointerTotalSize (-3) (Some [JointPointer_t_new 100 8 8])
  = Err EmptyRequestSet /\
  JointPointerWrite 4096 (-3) (Some [JointPointer_t_new 100 8 8]) fresh_world
  = Aborts EmptyRequestSet fresh_world /\
  JointPointerAllocate 200 bump_allocator (-3)
    (Some [JointPointer_t_new 100 8 8]) fresh_world
  = Aborts EmptyRequestSet fresh_world /\
  JointPointerAllocate_aligned 200 bump_allocator_aligned (-3)
    (Some [JointPointer_t_new 100 8 8]) fresh_world
  = Aborts EmptyRequestSet fresh_world.
Proof.
  apply (nonpositive_count_fails (-3) 200 4096 bump_allocator
           bump_allocator_aligned (Some [JointPointer_t_new 100 8 8])
           fresh_world).
  lia.
Defined.

(** X10.  With a positive count and a null array pointer the planner, the
    resolver and both array overloads stop at the assertion on the pointer;
    nothing is stored and the allocator is not invoked. *)
Theorem null_array_fails {H : Type} (Num OutSize Memory : Z)
    (Alloc : PlainAllocator H) (AllocA : AlignedAllocator H) (w : World H) :
  0 < Num ->
  JointPointerTotalSize Num None = Err NullElems /\
  JointPointerWrite Memory Num None w = Aborts NullElems w /\
  JointPointerAllocate OutSize Alloc Num None w = Aborts NullElems w /\
  JointPointerAllocate_aligned OutSize AllocA Num None w = Aborts NullElems w.
Proof.
  intros HNum.
  unfold JointPointerTotalSize, JointPointerWrite, JointPointerAllocate,
    JointPointerAllocate_aligned, bind, JOINTPOINTERMATH_ASSERT.
  destruct (Z.ltb_spec 0 Num) as [_ | Hle]; [| lia].
  repeat split; reflexivity.
Qed.

Lemma null_array_fails_witness :
  JointPointerTotalSize 2 None = Err NullElems /\
  JointPointerWrite 4096 2 None fresh_world = Aborts NullElems fresh_world /\
  JointPointerAllocate 200 bump_allocator 2 None fresh_world
  = Aborts NullElems fresh_world /\
  JointPointerAllocate_aligned 200 bump_allocator_aligned 2 None fresh_world
  = Aborts NullElems fresh_world.
Proof.
  apply (null_array_fails 2 200 4096 bump_allocator bump_allocator_aligned
           fresh_world).
  lia.
Defined.

(** X11.  On a non-empty array with pairwise distinct output slots the
    resolver returns, every slot then holds [Memory + Offset] of its
    element (reduced to a pointer), every other address of caller memory
    is unchanged, and the allocator is neither invoked nor changed. *)
Theorem write_resolves_slots {H : Type} (Memory : Z)
    (Elems : list JointPointer_t) (w : World H) :
  Elems <> [] -> NoDup (Pointer <$> Elems) ->
  exists w',
    JointPointerWrite Memory (Z.of_nat (length Elems)) (Some Elems) w
    = Returns tt w' /\
    (forall e, e ∈ Elems ->
       mem w' !! Pointer e = Some (wrap (Memory + Offset e))) /\
    (forall p, p ∉ Pointer <$> Elems -> mem w' !! p = mem w !! p) /\
    heap w' = heap w /\ alloc_calls w' = alloc_calls w.
Proof.
  intros Hne Hnd. rewrite (JointPointerWrite_run Memory Elems w Hne).
  eexists. split; [reflexivity |]. cbn [mem heap alloc_calls].
  split; [| split; [| split; reflexivity]].
  - intros e He. apply write_from_distinct; assumption.
  - intros p Hp. apply write_from_other; assumption.
Qed.

Lemma write_resolves_slots_witness :
  exists w',
    JointPointerWrite 4096 2
      (Some [mkJointPointer_t 100 5 4 0; mkJointPointer_t 108 8 8 8])
      fresh_world
    = Returns tt w' /\
    (forall e, e ∈ [mkJointPointer_t 100 5 4 0; mkJointPointer_t 108 8 8 8] ->
       mem w' !! Pointer e = Some (wrap (4096 + Offset e))) /\
    (forall p,
       p ∉ Pointer <$> [mkJointPointer_t 100 5 4 0; mkJointPointer_t 108 8 8 8] ->
       mem w' !! p = mem fresh_world !! p) /\
    heap w' = heap fresh_world /\ alloc_calls w' = alloc_calls fresh_world.
Proof.
  apply (write_resolves_slots 4096
           [mkJointPointer_t 100 5 4 0; mkJointPointer_t 108 8 8 8]
           fresh_world).
  - discriminate.
  - apply (bool_decide_unpack (NoDup _)). vm_compute. exact I.
Defined.

(** X12.  When several elements name the same output slot, the resolver
    leaves in it the address of the last of them. *)
Theorem write_last_element_wins {H : Type} (Memory : Z)
    (before after : list JointPointer_t) (e : JointPointer_t) (w : World H) :
  Pointer e ∉ Pointer <$> after ->
  exists w',
    JointPointerWrite Memory (Z.of_nat (length (before ++ e :: after)))
      (Some (before ++ e :: after)) w
    = Returns tt w' /\
    mem w' !! Pointer e = Some (wrap (Memory + Offset e)).
Proof.
  intros Hnot.
  rewrite JointPointerWrite_run by (destruct before; discriminate).
  eexists. split; [reflexivity |]. cbn [mem].
  apply write_from_last. assumption.
Qed.

Lemma write_last_element_wins_witness :
  exists w',
    JointPointerWrite 4096 2
      (Some [mkJointPointer_t 100 5 4 0; mkJointPointer_t 100 8 8 8])
      fresh_world
    = Returns tt w' /\
    mem w' !! 100 = Some (wrap (4096 + 8)).
Proof.
  apply (write_last_element_wins 4096 [mkJointPointer_t 100 5 4 0] []
           (mkJointPointer_t 100 8 8 8) fresh_world).
  apply not_elem_of_nil.
Defined.

(** X13.  On a non-empty array with pairwise distinct output slots, none of
    which is the [OutSize] cell, the plain array overload returns the
    allocator's pointer after exactly one allocator call, made with the
    planner's total; afterwards [*OutSize] (when not null) holds that
    total, every slot holds the returned pointer plus its element's offset,
    and no other address of caller memory has changed. *)
Theorem allocate_resolves_slots {H : Type} (OutSize : Z)
    (Alloc : PlainAllocator H) (Elems : list JointPointer_t) (w : World H) :
  Elems <> [] -> NoDup (Pointer <$> Elems) -> OutSize ∉ Pointer <$> Elems ->
  exists total planned Memory w',
    JointPointerTotalSize (Z.of_nat (length Elems)) (Some Elems)
    = Ok (total, planned) /\
    JointPointerAllocate OutSize Alloc (Z.of_nat (length Elems)) (Some Elems) w
    = Returns (Memory, planned) w' /\
    Alloc (heap w) total = (Memory, heap w') /\
    alloc_calls w' = alloc_calls w ++ [PlainCall total] /\
    (OutSize <> 0 -> mem w' !! OutSize = Some total) /\
    (forall e, e ∈ planned ->
       mem w' !! Pointer e = Some (wrap (Memory + Offset e))) /\
    (forall p, p ∉ Pointer <$> Elems -> OutSize = 0 \/ p <> OutSize ->
       mem w' !! p = mem w !! p).
Proof.
  intros Hne Hnd Hout.
  rewrite (JointPointerTotalSize_plan Elems Hne).
  rewrite (JointPointerAllocate_run OutSize Alloc Elems w Hne).
  pose proof (plan_from_frame Elems 0) as (Hptr & _ & _).
  destruct (plan_from 0 Elems) as [total planned]. cbn [fst snd] in *.
  rewrite <- Hptr in Hnd, Hout.
  exists total, planned, (fst (Alloc (heap w) total)). eexists.
  split; [reflexivity |]. split; [reflexivity |].
  cbn [after_allocate mem heap alloc_calls].
  split; [destruct (Alloc (heap w) total); reflexivity |].
  split; [reflexivity |].
  split; [| split].
  - intros HO. rewrite write_from_other by assumption.
    destruct (Z.eqb_spec OutSize 0) as [-> | _]; [congruence |].
    apply lookup_insert_eq.
  - intros e He. apply write_from_distinct; assumption.
  - intros p Hp Hpo. rewrite <- Hptr in Hp.
    rewrite write_from_other by assumption.
    destruct (Z.eqb_spec OutSize 0) as [HO | HO]; [reflexivity |].
    destruct Hpo as [Hz | Hpo]; [congruence |].
    apply lookup_insert_ne. congruence.
Qed.

Lemma allocate_resolves_slots_witness :
  exists total planned Memory w',
    JointPointerTotalSize 2
      (Some [JointPointer_t_new 100 5 4; JointPointer_t_new 108 8 8])
    = Ok (total, planned) /\
    JointPointerAllocate 200 bump_allocator 2
      (Some [JointPointer_t_new 100 5 4; JointPointer_t_new 108 8 8])
      fresh_world
    = Returns (Memory, planned) w' /\
    bump_allocator 4096 total = (Memory, heap w') /\
    alloc_calls w' = [PlainCall total] /\
    (200 <> 0 -> mem w' !! 200 = Some total) /\
    (forall e, e ∈ planned ->
       mem w' !! Pointer e = Some (wrap (Memory + Offset e))) /\
    (forall p,
       p ∉ Pointer <$> [JointPointer_t_new 100 5 4; JointPointer_t_new 108 8 8] ->
       200 = 0 \/ p <> 200 ->
       mem w' !! p = mem fresh_world !! p).
Proof.
  apply (allocate_resolves_slots 200 bump_allocator
           [JointPointer_t_new 100 5 4; JointPointer_t_new 108 8 8]
           fresh_world).
  - discriminate.
  - apply (bool_decide_unpack (NoDup _)). vm_compute. exact I.
  - apply (bool_decide_unpack (_ ∉ _)). vm_compute. exact I.
Defined.

(** X14.  For a non-empty array of requests with power-of-two alignments
    and pairwise distinct slots, when the buffer the allocator returns lies
    inside the address space, every request whose alignment divides the
    base address gets a resolved address that its alignment divides. *)
Theorem allocate_addresses_aligned {H : Type} (OutSize : Z)
    (Alloc : PlainAllocator H) (Elems : list JointPointer_t) (w : World H) :
  Elems <> [] -> Forall valid_request Elems -> fits_address_space Elems ->
  NoDup (Pointer <$> Elems) ->
  0 <= fst (Alloc (heap w) (fst (reference_plan 0 Elems))) ->
  fst (Alloc (heap w) (fst (reference_plan 0 Elems)))
    + fst (reference_plan 0 Elems) <= SIZE_MAX ->
  exists Memory planned w',
    JointPointerAllocate OutSize Alloc (Z.of_nat (length Elems)) (Some Elems) w
    = Returns (Memory, planned) w' /\
    forall e, e ∈ planned -> (Alignment e | Memory) ->
      mem w' !! Pointer e = Some (Memory + Offset e) /\
      (Alignment e | Memory + Offset e).
Proof.
  intros Hne Hv Hfit Hnd Hlo Hhi.
  rewrite (JointPointerAllocate_run OutSize Alloc Elems w Hne).
  pose proof (plan_from_packed Elems 0 ltac:(lia) Hv Hfit) as Hp.
  destruct (plan_from_reference Elems 0 ltac:(lia) Hv Hfit) as [Ht _].
  pose proof (plan_from_frame Elems 0) as (Hptr & Hsz & _).
  rewrite <- Ht in Hlo, Hhi.
  assert (Hsize : Forall (fun e => 0 <= Size e) (snd (plan_from 0 Elems))).
  { apply valid_request_size_nonneg in Hv.
    rewrite Forall_lookup in *. intros i e Hi.
    assert (Hs : (Size <$> Elems) !! i = Some (Size e))
      by (rewrite <- Hsz, list_lookup_fmap, Hi; reflexivity).
    rewrite list_lookup_fmap in Hs.
    destruct (Elems !! i) as [e0 |] eqn:E0; [| discriminate].
    injection Hs as <-. exact (Hv i e0 E0). }
  destruct (plan_from 0 Elems) as [total planned]. cbn [fst snd] in *.
  rewrite <- Hptr in Hnd.
  destruct (packed_within planned 0 total Hsize Hp) as [_ Hin].
  pose proof (packed_aligned planned 0 total Hp) as Hal.
  rewrite Forall_forall in Hin, Hal, Hsize.
  eexists _, _, _. split; [reflexivity |].
  intros e He Hdiv. cbn [after_allocate mem].
  rewrite (write_from_distinct planned _ _ e Hnd He).
  specialize (Hin e He). specialize (Hal e He). specialize (Hsize e He).
  cbn beta in Hin, Hal, Hsize.
  rewrite wrap_small by lia.
  split; [reflexivity | apply Z.divide_add_r; assumption].
Qed.

Lemma allocate_addresses_aligned_witness :
  exists Memory planned w',
    JointPointerAllocate 0 bump_allocator 2
      (Some [JointPointer_t_new 100 5 4; JointPointer_t_new 108 8 8])
      fresh_world
    = Returns (Memory, planned) w' /\
    forall e, e ∈ planned -> (Alignment e | Memory) ->
      mem w' !! Pointer e = Some (Memory + Offset e) /\
      (Alignment e | Memory + Offset e).
Proof.
  apply (allocate_addresses_aligned 0 bump_allocator
           [JointPointer_t_new 100 5 4; JointPointer_t_new 108 8 8]
           fresh_world).
  - discriminate.
  - repeat constructor; simpl.
    + apply (pow2_intro 2). lia.
    + vm_compute. discriminate.
    + vm_compute. discriminate.
    + apply (pow2_intro 3). lia.
    + vm_compute. discriminate.
    + vm_compute. discriminate.
  - vm_compute. discriminate.
  - apply (bool_decide_unpack (NoDup _)). vm_compute. exact I.
  - vm_compute. discriminate.
  - vm_compute. discriminate.
Defined.

(** X15.  The two overloads that take an aligned allocator pass its
    arguments in opposite orders: the array overload calls it with the
    first element's alignment and then the total, the initializer_list
    overload with the total and then the first element's alignment. *)
Theorem aligned_overloads_argument_order {H : Type} (OutSize : Z)
    (AllocA : AlignedAllocator H) (first : JointPointer_t)
    (rest : list JointPointer_t) (w : World H) :
  exists total planned Memory w1 w2,
    JointPointerTotalSize (Z.of_nat (length (first :: rest)))
      (Some (first :: rest))
    = Ok (total, planned) /\
    JointPointerAllocate_aligned OutSize AllocA
      (Z.of_nat (length (first :: rest))) (Some (first :: rest)) w
    = Returns (Memory, planned) w1 /\
    alloc_calls w1 = alloc_calls w ++ [AlignedCall (Alignment first) total] /\
    JointPointerAllocate_ini_aligned OutSize AllocA (first :: rest) w
    = Returns 0 w2 /\
    alloc_calls w2 = alloc_calls w ++ [AlignedCall total (Alignment first)].
Proof.
  rewrite (JointPointerTotalSize_plan (first :: rest)) by discriminate.
  rewrite JointPointerAllocate_aligned_run.
  rewrite JointPointerAllocate_ini_aligned_run.
  destruct (plan_from 0 (first :: rest)) as [total planned]. cbn [fst snd].
  eexists _, _, _, _, _. repeat split; reflexivity.
Qed.

(** X16.  Up to that exchange the two agree: the initializer_list overload
    run with the allocator's arguments swapped leaves the same caller
    memory and the same allocator state as the array overload. *)
Theorem aligned_overloads_agree_up_to_swap {H : Type} (OutSize : Z)
    (AllocA : AlignedAllocator H) (first : JointPointer_t)
    (rest : list JointPointer_t) (w : World H) :
  exists Memory planned w1 w2,
    JointPointerAllocate_aligned OutSize AllocA
      (Z.of_nat (length (first :: rest))) (Some (first :: rest)) w
    = Returns (Memory, planned) w1 /\
    JointPointerAllocate_ini_aligned OutSize (swap_arguments AllocA)
      (first :: rest) w
    = Returns 0 w2 /\
    mem w1 = mem w2 /\ heap w1 = heap w2.
Proof.
  rewrite JointPointerAllocate_aligned_run.
  rewrite JointPointerAllocate_ini_aligned_run.
  eexists _, _, _, _. repeat split; reflexivity.
Qed.

(** X17.  The initializer_list overload returns null, but when the first
    element's slot is not named again by a later element and the allocator
    returns a pointer value, that slot holds the base address the allocator
    returned. *)
Theorem ini_allocate_first_slot_is_base {H : Type} (OutSize : Z)
    (Alloc : PlainAllocator H) (first : JointPointer_t)
    (rest : list JointPointer_t) (w : World H) :
  Pointer first ∉ Pointer <$> rest ->
  (forall size, in_range (fst (Alloc (heap w) size))) ->
  exists total w',
    JointPointerAllocate_ini OutSize Alloc (first :: rest) w = Returns 0 w' /\
    alloc_calls w' = alloc_calls w ++ [PlainCall total] /\
    mem w' !! Pointer first = Some (fst (Alloc (heap w) total)).
Proof.
  intros Hnot Hrange.
  rewrite JointPointerAllocate_ini_run by discriminate.
  cbn [plan_from]. rewrite align_cursor_null.
  pose proof (plan_from_frame rest (advance 0 (Size first))) as (Hptr & _ & _).
  destruct (plan_from (advance 0 (Size first)) rest) as [total planned].
  cbn [fst snd] in *. rewrite <- Hptr in Hnot.
  exists total. eexists. split; [reflexivity |]. split; [reflexivity |].
  cbn [after_allocate mem].
  change (Pointer first) with (Pointer (set_Offset 0 first)) at 1.
  rewrite (write_from_last [] planned (set_Offset 0 first)) by exact Hnot.
  cbn [Offset set_Offset]. rewrite Z.add_0_r, wrap_small; [reflexivity |].
  apply Hrange.
Qed.

Lemma ini_allocate_first_slot_is_base_witness :
  exists total w',
    JointPointerAllocate_ini 0 bump_allocator
      [JointPointer_t_new 100 48 16; JointPointer_t_new 108 12 2] fresh_world
    = Returns 0 w' /\
    alloc_calls w' = [PlainCall total] /\
    mem w' !! 100 = Some (fst (bump_allocator 4096 total)).
Proof.
  apply (ini_allocate_first_slot_is_base 0 bump_allocator
           (JointPointer_t_new 100 48 16) [JointPointer_t_new 108 12 2]
           fresh_world).
  - apply (bool_decide_unpack (_ ∉ _)). vm_compute. exact I.
  - intros size. vm_compute. split; discriminate.
Defined.

(** X18.  The overloads that take the array by reference, and so pass its
    true length as the count, return on every non-empty array: they never
    stop on the array pointer or on an index, and they hand back the
    planner's array. *)
Theorem array_overloads_return {H : Type} (OutSize : Z)
    (Alloc : PlainAllocator H) (AllocA : AlignedAllocator H)
    (Arr : list JointPointer_t) (w : World H) :
  Arr <> [] ->
  exists total planned,
    JointPointerTotalSize_arr Arr = Ok (total, planned) /\
    length planned = length Arr /\
    (exists Memory w',
        JointPointerAllocate_arr OutSize Alloc Arr w
        = Returns (Memory, planned) w') /\
    (exists Memory w',
        JointPointerAllocate_aligned_arr OutSize AllocA Arr w
        = Returns (Memory, planned) w').
Proof.
  intros Hne.
  unfold JointPointerTotalSize_arr, JointPointerAllocate_arr,
    JointPointerAllocate_aligned_arr.
  destruct (Z.ltb_spec 0 (Z.of_nat (length Arr))) as [_ | Hle];
    [| destruct Arr; [congruence | simpl in Hle; lia]].
  cbn [negb]. rewrite (JointPointerTotalSize_plan Arr Hne).
  rewrite (JointPointerAllocate_run OutSize Alloc Arr w Hne).
  pose proof (plan_from_length Arr 0) as Hlen.
  destruct Arr as [| first rest]; [congruence |].
  rewrite JointPointerAllocate_aligned_run.
  destruct (plan_from 0 (first :: rest)) as [total planned].
  cbn [fst snd] in *.
  exists total, planned. split; [reflexivity |]. split; [exact Hlen |].
  split; eexists _, _; reflexivity.
Qed.

Lemma array_overloads_return_witness :
  exists total planned,
    JointPointerTotalSize_arr
      [JointPointer_t_new 100 48 16; JointPointer_t_new 108 12 2]
    = Ok (total, planned) /\
    length planned = 2%nat /\
    (exists Memory w',
        JointPointerAllocate_arr 0 bump_allocator
          [JointPointer_t_new 100 48 16; JointPointer_t_new 108 12 2]
          fresh_world
        = Returns (Memory, planned) w') /\
    (exists Memory w',
        JointPointerAllocate_aligned_arr 0 bump_allocator_aligned
          [JointPointer_t_new 100 48 16; JointPointer_t_new 108 12 2]
          fresh_world
        = Returns (Memory, planned) w').
Proof.
  apply (array_overloads_return 0 bump_allocator bump_allocator_aligned
           [JointPointer_t_new 100 48 16; JointPointer_t_new 108 12 2]
           fresh_world).
  discriminate.
Defined.
